(** * prepdocslib.textsplitter: a shallow embedding and its properties

    The Python module [app/backend/prepdocslib/textsplitter.py] re-chunks the
    pages of a document into sections.  This file embeds its three splitters
    ([SentenceTextSplitter], [SimpleTextSplitter], [ExcelSplitter]) as Rocq
    functions and proves properties of them.

    Conventions of the embedding:
    - a Python [str] is a list of Unicode code points ([str := list N]);
    - Python integers are [Z]; indexing and slicing follow Python (negative
      indices count from the end, slices clamp, [s[i]] raises [IndexError]);
    - a generator is the list of values it yields together with the way the
      run ended ([Returned], [Raised e], or [Timeout] when the fuel that
      bounds recursion depth / loop iterations ran out);
    - the tokenizer ([bpe.encode]), [tabulate] and the [str()] of a cell
      value are external and are taken as parameters. *)

From Stdlib Require Import String Ascii List ZArith NArith Lia Bool.
Import ListNotations.

Local Open Scope Z_scope.

(* ------------------------------------------------------------------ *)
(** ** Python strings and the built-ins the module uses *)

Definition char := N.
Definition str := list char.

(** A string literal of ASCII characters as a Python [str]. *)
Fixpoint lit (s : string) : str :=
  match s with
  | EmptyString => []
  | String a r => N_of_ascii a :: lit r
  end.

Definition len {A : Type} (s : list A) : Z := Z.of_nat (length s).

(** [c in cs] for a list of one-character strings [cs]. *)
Definition char_in (cs : list char) (c : char) : bool :=
  existsb (N.eqb c) cs.

(** Exceptions the embedded code can raise. *)
Inductive exn := IndexError | TypeError | ValueError.

Inductive res (A : Type) :=
| Ok (a : A)
| Raise (e : exn).
Arguments Ok {A} a.
Arguments Raise {A} e.

Definition bind {A B : Type} (m : res A) (k : A -> res B) : res B :=
  match m with
  | Ok a => k a
  | Raise e => Raise e
  end.

Notation "x <- m ;; k" := (bind m (fun x => k))
  (at level 61, m at next level, right associativity).
Notation "' p <- m ;; k" := (bind m (fun x => match x with p => k end))
  (at level 61, p pattern, m at next level, right associativity).

(** [s[i]]: a negative index counts from the end; out of range raises
    [IndexError]. *)
Definition getitem {A : Type} (s : list A) (i : Z) : res A :=
  let j := if i <? 0 then i + len s else i in
  if (j <? 0) || (len s <=? j) then Raise IndexError
  else match nth_error s (Z.to_nat j) with
       | Some c => Ok c
       | None => Raise IndexError
       end.

(** How a slice bound is clamped: [None] is an omitted bound. *)
Definition clamp (n : Z) (dflt : Z) (i : option Z) : Z :=
  match i with
  | None => dflt
  | Some i => if i <? 0 then Z.max (i + n) 0 else Z.min i n
  end.

(** [s[lo:hi]]. *)
Definition slice {A : Type} (s : list A) (lo hi : option Z) : list A :=
  let n := len s in
  let l := clamp n 0 lo in
  let h := clamp n n hi in
  firstn (Z.to_nat (h - l)) (skipn (Z.to_nat l) s).

(** Characters for which [str.isspace] holds; [str.strip()] removes them. *)
Definition is_space (c : char) : bool :=
  ((9 <=? c) && (c <=? 13) || (28 <=? c) && (c <=? 32)
   || (c =? 133) || (c =? 160) || (c =? 5760)
   || (8192 <=? c) && (c <=? 8202)
   || (c =? 8232) || (c =? 8233) || (c =? 8239) || (c =? 8287)
   || (c =? 12288))%N.

Fixpoint lstrip (s : str) : str :=
  match s with
  | [] => []
  | c :: r => if is_space c then lstrip r else s
  end.

Definition rstrip (s : str) : str := rev (lstrip (rev s)).

(** [s.strip()]. *)
Definition strip (s : str) : str := rstrip (lstrip s).

(** ["".join(parts)]. *)
Definition join_empty (parts : list str) : str := concat parts.

(** [sep.join(parts)]. *)
Fixpoint join (sep : str) (parts : list str) : str :=
  match parts with
  | [] => []
  | [p] => p
  | p :: r => p ++ sep ++ join sep r
  end.

(** Does [sub] occur in [s] at position 0? *)
Fixpoint starts_with (sub s : str) : bool :=
  match sub, s with
  | [], _ => true
  | _ :: _, [] => false
  | a :: sub', b :: s' => N.eqb a b && starts_with sub' s'
  end.

(** [s.rfind(sub)]: the highest index at which [sub] occurs, or -1.
    [rfind_from s k] looks at the suffixes of [s], [k] being the index of
    the current one, and keeps the last hit. *)
Fixpoint rfind_from (sub s : str) (k : Z) : Z :=
  match s with
  | [] => if starts_with sub [] then k else -1
  | _ :: r =>
      let later := rfind_from sub r (k + 1) in
      if 0 <=? later then later
      else if starts_with sub s then k else -1
  end.

Definition rfind (s sub : str) : Z := rfind_from sub s 0.

(** The values of [range(start, stop, step)] for a non-zero [step]
    ([step = 0] raises [ValueError] where the range is built). *)
Fixpoint range_loop (n : nat) (i stop step : Z) : list Z :=
  match n with
  | O => []
  | S n' =>
      if (if 0 <? step then i <? stop else stop <? i)
      then i :: range_loop n' (i + step) stop step
      else []
  end.

Definition range (start stop step : Z) : list Z :=
  range_loop (Z.to_nat (Z.abs (stop - start))) start stop step.

(* ------------------------------------------------------------------ *)
(** ** The page model ([prepdocslib/page.py]) *)

(** A page identifier: an integer, or a sheet name. *)
Inductive PageNum :=
| PInt (n : Z)
| PStr (s : str).

(** Modelled from the spec: [page.py] is not part of the sources at hand.
    A [Page] has a page number, an offset within the concatenation of all
    pages (absent for sheets) and a content, which is a [str] for the text
    splitters and a worksheet for the [ExcelSplitter]. *)
Record Page (T : Type) := mkPage {
  page_num : PageNum;
  offset : option Z;
  text : T
}.
Arguments mkPage {T} _ _ _.
Arguments page_num {T} _.
Arguments offset {T} _.
Arguments text {T} _.

(** Modelled from the spec: [SplitPage], a page number and a chunk of text. *)
Record SplitPage := mkSplitPage {
  sp_page_num : PageNum;
  sp_text : str
}.

(* ------------------------------------------------------------------ *)
(** ** Generators *)

Inductive outcome :=
| Returned
| Raised (e : exn)
| Timeout.

(** What a generator yields, and how its run ended. *)
Definition gen := (list SplitPage * outcome)%type.

(** [yield from g1; yield from g2]. *)
Definition gseq (g1 g2 : gen) : gen :=
  match g1 with
  | (out1, Returned) => (out1 ++ fst g2, snd g2)
  | _ => g1
  end.

Definition yielded (g : gen) : list SplitPage := fst g.
Definition ending (g : gen) : outcome := snd g.

(* ------------------------------------------------------------------ *)
(** ** Module constants *)

Definition STANDARD_WORD_BREAKS : list char :=
  [44; 59; 58; 32; 40; 41; 91; 93; 123; 125; 9; 10]%N.

Definition CJK_WORD_BREAKS : list char :=
  [12289; 65292; 65307; 65306; 65288; 65289; 12304; 12305; 12300; 12301;
   12302; 12303; 12308; 12309; 12296; 12297; 12298; 12299; 12310; 12311;
   12312; 12313; 12314; 12315; 12317; 12318; 12319; 12336; 8211; 8212;
   8216; 8217; 8218; 8219; 8220; 8221; 8222; 8223; 8249; 8250]%N.

Definition STANDARD_SENTENCE_ENDINGS : list char := [46; 33; 63]%N.

Definition CJK_SENTENCE_ENDINGS : list char :=
  [12290; 65281; 65311; 8252; 8263; 8264; 8265]%N.

Definition DEFAULT_OVERLAP_PERCENT : Z := 10.
Definition DEFAULT_SECTION_LENGTH : Z := 1000.

(* ------------------------------------------------------------------ *)
(** ** SentenceTextSplitter *)

Module SentenceTextSplitter.

Record t := mk {
  sentence_endings : list char;
  word_breaks : list char;
  max_section_length : Z;
  sentence_search_limit : Z;
  max_tokens_per_section : Z;
  section_overlap : Z
}.

(** [__init__]. *)
Definition init (max_tokens_per_section : Z) : t :=
  {| sentence_endings := STANDARD_SENTENCE_ENDINGS ++ CJK_SENTENCE_ENDINGS;
     word_breaks := STANDARD_WORD_BREAKS ++ CJK_WORD_BREAKS;
     max_section_length := DEFAULT_SECTION_LENGTH;
     sentence_search_limit := 100;
     max_tokens_per_section := max_tokens_per_section;
     section_overlap :=
       DEFAULT_SECTION_LENGTH * DEFAULT_OVERLAP_PERCENT / 100 |}.

Section Methods.

(** [len(bpe.encode(text))]: the external token counter. *)
Variable count_tokens : str -> nat.
Variable self : t.

(** The spiral search of [split_page_by_max_tokens]: the [while] loop that
    starts at the centre and looks for the closest sentence ending.  The
    result is the list of indices at which [text] was read, in order, and
    the final [split_position] (-1 when none was found).  [n] bounds the
    number of iterations; the loop is run with [n = start - boundary], the
    number of values of [pos] for which the guard holds. *)
Fixpoint spiral_loop (n : nat) (text : str) (start boundary pos : Z)
  : list Z * res Z :=
  match n with
  | O => ([], Ok (-1))
  | S n' =>
      if start - pos >? boundary then
        match getitem text (start - pos) with
        | Raise e => ([start - pos], Raise e)
        | Ok c =>
            if char_in (sentence_endings self) c
            then ([start - pos], Ok (start - pos))
            else
              match getitem text (start + pos) with
              | Raise e => ([start - pos; start + pos], Raise e)
              | Ok d =>
                  if char_in (sentence_endings self) d
                  then ([start - pos; start + pos], Ok (start + pos))
                  else
                    let (tr, r) :=
                      spiral_loop n' text start boundary (pos + 1) in
                    (start - pos :: start + pos :: tr, r)
              end
        end
      else ([], Ok (-1))
  end.

Definition spiral_search (text : str) : list Z * res Z :=
  let start := len text / 2 in
  let boundary := len text / 3 in
  spiral_loop (Z.to_nat (start - boundary)) text start boundary 0.

(** The two halves on which [split_page_by_max_tokens] recurses.
    [int(len(text) * (DEFAULT_OVERLAP_PERCENT / 100))] is the truncation of
    the double [len(text) * 0.1], which is [len(text) * 10 / 100] in
    integers for every length a string can have. *)
Definition halves (text : str) (split_position : Z) : str * str :=
  if split_position >? 0 then
    (slice text None (Some (split_position + 1)),
     slice text (Some (split_position + 1)) None)
  else
    let middle := len text / 2 in
    let overlap := len text * DEFAULT_OVERLAP_PERCENT / 100 in
    (slice text None (Some (middle + overlap)),
     slice text (Some (middle - overlap)) None).

(** [split_page_by_max_tokens]; [fuel] bounds the recursion depth. *)
Fixpoint split_page_by_max_tokens (fuel : nat) (page_num : PageNum)
  (text : str) : gen :=
  match fuel with
  | O => ([], Timeout)
  | S fuel' =>
      if Z.of_nat (count_tokens text) <=? max_tokens_per_section self
      then ([mkSplitPage page_num text], Returned)
      else
        match snd (spiral_search text) with
        | Raise e => ([], Raised e)
        | Ok split_position =>
            let (first_half, second_half) := halves text split_position in
            gseq (split_page_by_max_tokens fuel' page_num first_half)
                 (split_page_by_max_tokens fuel' page_num second_half)
        end
  end.

(** [offset >= o] and [offset < o] for a page offset [o]: comparing an
    integer with [None] raises [TypeError]. *)
Definition offset_ge (off : Z) (o : option Z) : res bool :=
  match o with
  | Some o => Ok (o <=? off)
  | None => Raise TypeError
  end.

Definition offset_lt (off : Z) (o : option Z) : res bool :=
  match o with
  | Some o => Ok (off <? o)
  | None => Raise TypeError
  end.

(** [find_page(offset)], the local function of [split_pages]: the scan over
    [range(num_pages - 1)], then [pages[num_pages - 1]], which raises
    [IndexError] on an empty list. *)
Fixpoint find_page (pages : list (Page str)) (off : Z) : res PageNum :=
  match pages with
  | [] => Raise IndexError
  | p :: rest =>
      match rest with
      | [] => Ok (page_num p)
      | q :: _ =>
          ge <- offset_ge off (offset p) ;;
          hit <- (if ge then offset_lt off (offset q) else Ok false) ;;
          if hit then Ok (page_num p) else find_page rest off
      end
  end.

(** The inner [while] of lines 166-173, which moves [end] forward to a
    sentence ending and remembers the last word break.  It is run with
    [n = length - end], the number of positions left. *)
Fixpoint scan_end (n : nat) (all_text : str) (start end_ last_word : Z)
  : res (Z * Z) :=
  match n with
  | O => Ok (end_, last_word)
  | S n' =>
      if negb (end_ <? len all_text) then Ok (end_, last_word)
      else if negb (end_ - start - max_section_length self
                    <? sentence_search_limit self)
      then Ok (end_, last_word)
      else
        c <- getitem all_text end_ ;;
        if char_in (sentence_endings self) c then Ok (end_, last_word)
        else scan_end n' all_text start (end_ + 1)
               (if char_in (word_breaks self) c then end_ else last_word)
  end.

(** Lines 159-177: the end of the window that starts at [start]. *)
Definition window_end (all_text : str) (start : Z) : res Z :=
  let length := len all_text in
  let last_word := -1 in
  let end_ := start + max_section_length self in
  end_ <-
    (if end_ >? length then Ok length
     else
       '(end_, last_word) <-
         scan_end (Z.to_nat (length - end_)) all_text start end_ last_word ;;
       fall_back <-
         (if end_ <? length then
            c <- getitem all_text end_ ;;
            Ok (negb (char_in (sentence_endings self) c) && (last_word >? 0))
          else Ok false) ;;
       Ok (if fall_back then last_word else end_)) ;;
  Ok (if end_ <? length then end_ + 1 else end_).

(** The [while] of lines 181-188, which moves [start] backward.  It is run
    with [n = start], the number of positions left. *)
Fixpoint scan_start (n : nat) (all_text : str) (end_ start last_word : Z)
  : res (Z * Z) :=
  match n with
  | O => Ok (start, last_word)
  | S n' =>
      if negb (start >? 0) then Ok (start, last_word)
      else if negb (start >? end_ - max_section_length self
                              - 2 * sentence_search_limit self)
      then Ok (start, last_word)
      else
        c <- getitem all_text start ;;
        if char_in (sentence_endings self) c then Ok (start, last_word)
        else scan_start n' all_text end_ (start - 1)
               (if char_in (word_breaks self) c then start else last_word)
  end.

(** Lines 179-192: the start of the window, moved to the start of a sentence
    or at least of a word. *)
Definition window_start (all_text : str) (start end_ : Z) : res Z :=
  let last_word := -1 in
  '(start, last_word) <-
    scan_start (Z.to_nat start) all_text end_ start last_word ;;
  c <- getitem all_text start ;;
  let start :=
    if negb (char_in (sentence_endings self) c) && (last_word >? 0)
    then last_word else start in
  Ok (if start >? 0 then start + 1 else start).

(** Lines 159-194: the character range [(start, end)] of the section cut
    when the loop is entered with [start]. *)
Definition window (all_text : str) (start : Z) : res (Z * Z) :=
  end_ <- window_end all_text start ;;
  start <- window_start all_text start end_ ;;
  Ok (start, end_).

Definition unclosed_figure (section_text : str) : bool :=
  let last_figure_start := rfind section_text (lit "<figure") in
  (last_figure_start >? 2 * sentence_search_limit self)
  && (last_figure_start >? rfind section_text (lit "</figure")).

(** Lines 197-207: where the next iteration starts, [start] and [end] being
    the bounds of the section just cut.  The log message of the figure
    branch calls [find_page], which can raise. *)
Definition next_start (pages : list (Page str)) (section_text : str)
  (start end_ : Z) : res Z :=
  let last_figure_start := rfind section_text (lit "<figure") in
  if unclosed_figure section_text then
    let start := Z.min (end_ - section_overlap self)
                       (start + last_figure_start) in
    _ <- find_page pages start ;;
    Ok start
  else Ok (end_ - section_overlap self).

(** The [while start + self.section_overlap < length] loop and the [if] that
    follows it.  [n] bounds the number of iterations, [depth] the recursion
    of [split_page_by_max_tokens]. *)
Fixpoint sections_loop (n depth : nat) (pages : list (Page str))
  (all_text : str) (start end_ : Z) : gen :=
  match n with
  | O => ([], Timeout)
  | S n' =>
      if start + section_overlap self <? len all_text then
        match window all_text start with
        | Raise e => ([], Raised e)
        | Ok (start, end_) =>
            let section_text := slice all_text (Some start) (Some end_) in
            match find_page pages start with
            | Raise e => ([], Raised e)
            | Ok page_num =>
                gseq (split_page_by_max_tokens depth page_num section_text)
                     match next_start pages section_text start end_ with
                     | Raise e => ([], Raised e)
                     | Ok start => sections_loop n' depth pages all_text
                                     start end_
                     end
            end
        end
      else if start + section_overlap self <? end_ then
        match find_page pages start with
        | Raise e => ([], Raised e)
        | Ok page_num =>
            split_page_by_max_tokens depth page_num
              (slice all_text (Some start) (Some end_))
        end
      else ([], Returned)
  end.

(** [split_pages]. *)
Definition split_pages (fuel : nat) (pages : list (Page str)) : gen :=
  let all_text := join_empty (map text pages) in
  if len (strip all_text) =? 0 then ([], Returned)
  else
    let length := len all_text in
    if length <=? max_section_length self then
      match find_page pages 0 with
      | Raise e => ([], Raised e)
      | Ok page_num => split_page_by_max_tokens fuel page_num all_text
      end
    else sections_loop fuel fuel pages all_text 0 length.

End Methods.

End SentenceTextSplitter.

(* ------------------------------------------------------------------ *)
(** ** SimpleTextSplitter *)

Module SimpleTextSplitter.

Record t := mk { max_object_length : Z }.

(** [split_pages].  [range(0, length, 0)] raises [ValueError]. *)
Definition split_pages (self : t) (pages : list (Page str)) : gen :=
  let all_text := join_empty (map text pages) in
  if len (strip all_text) =? 0 then ([], Returned)
  else
    let length := len all_text in
    if length <=? max_object_length self
    then ([mkSplitPage (PInt 0) all_text], Returned)
    else if max_object_length self =? 0 then ([], Raised ValueError)
    else
      (map (fun i =>
              mkSplitPage (PInt (i / max_object_length self))
                (slice all_text (Some i)
                   (Some (i + max_object_length self))))
           (range 0 length (max_object_length self)),
       Returned).

End SimpleTextSplitter.

(* ------------------------------------------------------------------ *)
(** ** ExcelSplitter *)

Module ExcelSplitter.

(** Characters at which [str.splitlines] breaks a line. *)
Definition is_linebreak (c : char) : bool :=
  ((10 <=? c) && (c <=? 13) || (28 <=? c) && (c <=? 30)
   || (c =? 133) || (c =? 8232) || (c =? 8233))%N.

(** [s.splitlines()]; [cur] is the current line, reversed.  A carriage
    return followed by a line feed is one break. *)
Fixpoint splitlines_from (s : str) (cur : str) : list str :=
  match s with
  | [] => match cur with [] => [] | _ => [rev cur] end
  | c :: r =>
      if is_linebreak c then
        rev cur ::
          match r with
          | d :: r' =>
              if (c =? 13)%N && (d =? 10)%N then splitlines_from r' []
              else splitlines_from r []
          | [] => splitlines_from r []
          end
      else splitlines_from r (c :: cur)
  end.

Definition splitlines (s : str) : list str := splitlines_from s [].

(** [s.split(sep)] for a one-character separator. *)
Fixpoint split_from (sep : char) (s : str) (cur : str) : list str :=
  match s with
  | [] => [rev cur]
  | c :: r =>
      if (c =? sep)%N then rev cur :: split_from sep r []
      else split_from sep r (c :: cur)
  end.

Definition split (s : str) (sep : char) : list str := split_from sep s [].

Definition clean_line (line : str) : str :=
  if forallb (char_in (lit "-| ")) (strip line) then line
  else
    let cells := split line 124%N in
    let stripped_cells := map strip (slice cells (Some 1) (Some (-1))) in
    lit "| " ++ join (lit " | ") stripped_cells ++ lit " |".

(** [clean_markdown_table]. *)
Definition clean_markdown_table (table_str : str) : str :=
  let lines := splitlines table_str in
  let cleaned_lines := map clean_line lines in
  join [10%N] cleaned_lines.

(** [pd.notna(cell)] on a [str]: a string is never a missing value. *)
Definition pd_notna (cell : str) : bool := true.

Section Methods.

(** The values a cell can hold other than [None], and their [str()]. *)
Variable value : Type.
Variable str_of : value -> str.

(** What openpyxl gives for a worksheet: [sheet[1]], the cells of the first
    row, and [sheet.iter_rows(min_row=2)], the rows after it.  A cell is its
    [value], [None] when it is empty. *)
Record Worksheet := mkWorksheet {
  row1 : list (option value);
  iter_rows_2 : list (list (option value))
}.

(** A cell of the table handed to [tabulate]: a header keeps the value of
    its cell, a data cell is a string. *)
Inductive tcell :=
| TVal (v : value)
| TStr (s : str).

(** [tabulate(rows, headers="firstrow", tablefmt="grid")], external. *)
Variable tabulate : list (list tcell) -> str.

Definition cell_text (cell_value : option value) : str :=
  match cell_value with
  | None => []
  | Some v => str_of v
  end.

(** The loop of [get_sheet_data] over the rows after the first. *)
Fixpoint sheet_rows (rows : list (list (option value))) : list (list str) :=
  match rows with
  | [] => []
  | row :: rest =>
      let row_data := map cell_text row in
      match strip (join_empty row_data) with
      | [] => sheet_rows rest
      | _ :: _ => row_data :: sheet_rows rest
      end
  end.

(** [get_sheet_data]. *)
Definition get_sheet_data (sheet : Worksheet)
  : list (list str) * list tcell :=
  let data := sheet_rows (iter_rows_2 sheet) in
  let headers :=
    map (fun v => match v with Some v => TVal v | None => TStr [] end)
        (row1 sheet) in
  (data, headers).

Definition step : Z := 50.

(** The body of the inner [for] of [split_pages]: the table of the rows
    [rows[start_row:start_row + step]]. *)
Definition chunk_table (headers : list tcell) (rows : list (list str))
  (start_row : Z) : str :=
  let chunk_rows := slice rows (Some start_row) (Some (start_row + step)) in
  let chunk_rows :=
    map (map (fun cell => if pd_notna cell then cell else [])) chunk_rows in
  let table := tabulate (headers :: map (map TStr) chunk_rows) in
  clean_markdown_table table.

(** The body of the outer [for]: what one sheet yields. *)
Definition split_sheet (sheet_page : Page Worksheet) : list SplitPage :=
  let sheet := text sheet_page in
  let '(data, headers) := get_sheet_data sheet in
  let rows := data in
  map (fun start_row =>
         mkSplitPage (page_num sheet_page)
           (chunk_table headers rows start_row))
      (range 0 (len rows) step).

(** [split_pages]. *)
Definition split_pages (pages : list (Page Worksheet)) : gen :=
  (flat_map split_sheet pages, Returned).

End Methods.

End ExcelSplitter.

(* ------------------------------------------------------------------ *)
(** ** Vocabulary of the statements *)

(** Every page has an offset. *)
Definition offsets_present (pages : list (Page str)) : bool :=
  forallb (fun p => match offset p with Some _ => true | None => false end)
          pages.

(** Every page has an offset, at least [lo], and the offsets never
    decrease along the list. *)
Fixpoint offsets_from (lo : Z) (pages : list (Page str)) : bool :=
  match pages with
  | [] => true
  | p :: rest =>
      match offset p with
      | Some o => (lo <=? o) && offsets_from o rest
      | None => false
      end
  end.

(** The pages are ordered: offsets present and non-decreasing. *)
Definition offsets_ordered (pages : list (Page str)) : bool :=
  match pages with
  | [] => true
  | p :: rest =>
      match offset p with
      | Some o => offsets_from o rest
      | None => false
      end
  end.

(** Page [i] holds the offset [off]: it starts at or before [off] and
    either is the last page or its successor starts after [off]. *)
Definition page_holds (pages : list (Page str)) (i : nat) (off : Z) : Prop :=
  exists p a,
    nth_error pages i = Some p /\ offset p = Some a /\ a <= off
    /\ (S i = length pages
        \/ exists q b, nth_error pages (S i) = Some q
                       /\ offset q = Some b /\ off < b).

(** A row of a sheet is blank when its cells, [None] read as the empty
    string, join to a string that is empty once stripped. *)
Definition blank_row {value : Type} (str_of : value -> str)
  (row : list (option value)) : bool :=
  match strip (join_empty (map (ExcelSplitter.cell_text value str_of) row))
  with
  | [] => true
  | _ :: _ => false
  end.

(** The table the tabular splitter makes of a block of rows: the header
    and the rows through [tabulate], then cleaned. *)
Definition block_table {value : Type}
  (tabulate : list (list (ExcelSplitter.tcell value)) -> str)
  (headers : list (ExcelSplitter.tcell value)) (block : list (list str))
  : str :=
  ExcelSplitter.clean_markdown_table
    (tabulate (headers :: map (map (ExcelSplitter.TStr value)) block)).

(** An index at which [text] can be read. *)
Definition in_bounds (text : str) (i : Z) : Prop := 0 <= i < len text.

(** The ceiling of [a / b] for a positive [b]. *)
Definition ceil_div (a b : Z) : Z := (a + b - 1) / b.

(** The number of positions two character ranges [[a, e)] and [[a', e')]
    have in common. *)
Definition range_overlap (a e a' e' : Z) : Z :=
  Z.max 0 (Z.min e e' - Z.max a a').

(* ------------------------------------------------------------------ *)
(** ** Inputs used in examples *)

Module Examples.

(** Two short pages. *)
Definition hello_pages : list (Page str) :=
  [mkPage (PInt 0) (Some 0) (lit "Hello world. ");
   mkPage (PInt 1) (Some 13) (lit "Bye now.")].

(** An empty page followed by a page that starts at the same offset. *)
Definition empty_first_page : list (Page str) :=
  [mkPage (PInt 0) (Some 0) (lit "");
   mkPage (PInt 1) (Some 0) (lit "abc")].

(** 1200 characters: two sentences that end at the positions 901 and 1000,
    then 199 more letters. *)
Definition two_sentences : str :=
  repeat 97%N 901 ++ [46%N] ++ repeat 97%N 98 ++ [46%N] ++ repeat 97%N 199.

(** 1617 characters: 600 letters, a figure of 600 letters between its
    tags, 400 letters. *)
Definition long_figure : str :=
  repeat 97%N 600 ++ lit "<figure>" ++ repeat 98%N 600 ++ lit "</figure>"
  ++ repeat 99%N 400.

(** 1300 characters without a sentence ending or a word break: 401
    letters, the opening tag of a figure that is never closed, 892
    letters. *)
Definition open_figure : str :=
  repeat 97%N 401 ++ lit "<figure" ++ repeat 97%N 892.

(** A counter that finds no token at all. *)
Definition no_token (text : str) : nat := 0.

(** A counter that gives every character one token. *)
Definition one_token_per_char (text : str) : nat := length text.

(** A sheet whose cells hold strings: a header and 120 rows of data. *)
Definition sheet_120 : ExcelSplitter.Worksheet str :=
  ExcelSplitter.mkWorksheet str
    [Some (lit "A"); Some (lit "B")]
    (repeat [Some (lit "1"); Some (lit "2")] 120).

(** A sheet with a header and rows that hold nothing. *)
Definition sheet_blank : ExcelSplitter.Worksheet str :=
  ExcelSplitter.mkWorksheet str
    [Some (lit "A"); Some (lit "B")]
    [[None; None]; [Some (lit ""); None]; [Some (lit " "); None]].

(** A stand-in for [tabulate]: one line per row, cells between bars. *)
Definition bars (rows : list (list (ExcelSplitter.tcell str))) : str :=
  join [10%N]
    (map (fun row =>
            lit "|" ++
            concat (map (fun c =>
                           match c with
                           | ExcelSplitter.TVal _ v => v ++ lit "|"
                           | ExcelSplitter.TStr _ s => s ++ lit "|"
                           end) row))
         rows).

End Examples.

(* ------------------------------------------------------------------ *)
(** ** Further vocabulary *)

(** [piece] is the part of [text] that starts at position [o]. *)
Definition occurs_at (text : str) (o : nat) (piece : str) : Prop :=
  piece = firstn (length piece) (skipn o text)
  /\ (o + length piece <= length text)%nat.

(** No character read at index [i] of [text] is a sentence ending. *)
Definition no_ending_at (self : SentenceTextSplitter.t) (text : str)
  (i : Z) : Prop :=
  forall c, getitem text i = Ok c ->
            char_in (SentenceTextSplitter.sentence_endings self) c = false.

(** Position [i] of [text] lies in one of the fragments, as a piece of
    [text]. *)
Definition covered (text : str) (frags : list SplitPage) (i : nat) : Prop :=
  exists f o,
    In f frags /\ occurs_at text o (sp_text f)
    /\ (o <= i < o + length (sp_text f))%nat.

(* ------------------------------------------------------------------ *)
(** ** ExcelParser ([prepdocslib/excelparser.py]) *)

Module ExcelParser.

Section Methods.

Variable value : Type.

(** The bytes of the file, and [load_workbook(BytesIO(content.read()),
    data_only=True)], external.  A workbook is the list of its sheets in
    the order of [workbook.sheetnames], each with its name;
    [workbook[sheet_name]] is the sheet of that name. *)
Variable content_t : Type.
Variable load_workbook :
  content_t -> list (str * ExcelSplitter.Worksheet value).

(** [parse]: one page per sheet, with the name of the sheet as page number
    and no offset. *)
Definition parse (content : content_t)
  : list (Page (ExcelSplitter.Worksheet value)) :=
  let workbook := load_workbook content in
  map (fun '(sheet_name, sheet) => mkPage (PStr sheet_name) None sheet)
      workbook.

End Methods.

End ExcelParser.

(** A string that does not start with a space. *)
Definition head_ok (s : str) : Prop :=
  match s with
  | [] => True
  | c :: _ => is_space c = false
  end.

(** The line [clean_markdown_table] makes of cells. *)
Definition table_line (cells : list str) : str :=
  lit "| " ++ join (lit " | ") cells ++ lit " |".

(** ** Further inputs used in examples *)

Module MoreExamples.

(** The text of two sentences as one page. *)
Definition two_sentences_pages : list (Page str) :=
  [mkPage (PInt 0) (Some 0) Examples.two_sentences].

(** Two short pages that carry no offset. *)
Definition pages_without_offsets : list (Page str) :=
  [mkPage (PInt 0) None (lit "Hello world. ");
   mkPage (PInt 1) None (lit "Bye now.")].

(** Two pages of which the first starts at offset 5. *)
Definition late_pages : list (Page str) :=
  [mkPage (PInt 3) (Some 5) (lit "abc");
   mkPage (PInt 4) (Some 8) (lit "de")].

End MoreExamples.

(* ================================================================== *)
(** * Properties *)

(** ** Python built-ins *)

Lemma len_nonneg {A : Type} (s : list A) : 0 <= len s.
Proof. unfold len. lia. Qed.

Lemma getitem_in_range {A : Type} (s : list A) (i : Z) :
  0 <= i < len s -> exists c, getitem s i = Ok c.
Proof.
  intros Hi. unfold getitem.
  destruct (i <? 0) eqn:Hneg; [apply Z.ltb_lt in Hneg; lia|].
  destruct ((i <? 0) || (len s <=? i)) eqn:Hout.
  - apply orb_true_iff in Hout. destruct Hout as [H|H];
      [apply Z.ltb_lt in H | apply Z.leb_le in H]; lia.
  - destruct (nth_error s (Z.to_nat i)) eqn:Hn; [eauto|].
    apply nth_error_None in Hn. unfold len in Hi. lia.
Qed.

Lemma clamp_range (n d : Z) (i : option Z) :
  0 <= n -> 0 <= d <= n -> 0 <= clamp n d i <= n.
Proof.
  intros Hn Hd. destruct i as [i|]; simpl; [|lia].
  destruct (i <? 0) eqn:H; [apply Z.ltb_lt in H | apply Z.ltb_ge in H]; lia.
Qed.

Lemma len_slice {A : Type} (s : list A) (lo hi : option Z) :
  len (slice s lo hi)
  = Z.max 0 (clamp (len s) (len s) hi - clamp (len s) 0 lo).
Proof.
  unfold slice.
  pose proof (len_nonneg s) as Hn.
  pose proof (clamp_range (len s) 0 lo Hn ltac:(lia)) as Hl.
  pose proof (clamp_range (len s) (len s) hi Hn ltac:(lia)) as Hh.
  unfold len in *. rewrite length_firstn, length_skipn. lia.
Qed.

(** ** Generators *)

Lemma yielded_gseq (P : SplitPage -> Prop) (g1 g2 : gen) :
  Forall P (yielded g1) -> Forall P (yielded g2) ->
  Forall P (yielded (gseq g1 g2)).
Proof.
  intros H1 H2. destruct g1 as [out1 [ | e | ]]; simpl in *; auto.
  apply Forall_app; auto.
Qed.

Lemma ending_gseq_returned (g1 g2 : gen) :
  ending g1 = Returned -> ending (gseq g1 g2) = ending g2.
Proof. destruct g1 as [out1 o]; simpl; intros ->; reflexivity. Qed.

(** ** The token-bounded splitter *)

Section TokenSplitter.

Import SentenceTextSplitter.

Variable count_tokens : str -> nat.
Variable self : t.

Ltac read_in_bounds :=
  repeat (apply Forall_cons; [assumption|]); solve [apply Forall_nil | assumption].

(** The loop reads only inside the text when it starts from a state in
    which the mirror image of the boundary is inside the text. *)
Lemma spiral_loop_in_bounds (text : str) (start boundary : Z) :
  0 <= boundary -> 2 * start - boundary <= len text ->
  forall n pos, 0 <= pos ->
    Forall (in_bounds text) (fst (spiral_loop self n text start boundary pos))
    /\ forall e, snd (spiral_loop self n text start boundary pos) <> Raise e.
Proof.
  intros Hb Hm. induction n as [|n IH]; intros pos Hpos; simpl.
  - split; [constructor | discriminate].
  - destruct (start - pos >? boundary) eqn:Hg;
      [|split; [constructor | discriminate]].
    apply Z.gtb_lt in Hg.
    assert (Hlo : in_bounds text (start - pos)) by (unfold in_bounds; lia).
    assert (Hhi : in_bounds text (start + pos)) by (unfold in_bounds; lia).
    destruct (getitem_in_range text (start - pos) Hlo) as [c ->].
    destruct (char_in (sentence_endings self) c).
    { split; [read_in_bounds | discriminate]. }
    destruct (getitem_in_range text (start + pos) Hhi) as [d ->].
    destruct (char_in (sentence_endings self) d).
    { split; [read_in_bounds | discriminate]. }
    destruct (IH (pos + 1) ltac:(lia)) as [IH1 IH2].
    destruct (spiral_loop self n text start boundary (pos + 1)) as [tr r].
    simpl in *. split; [read_in_bounds | exact IH2].
Qed.

(** The number of iterations given to the loop is enough: a larger bound
    gives the same run. *)
Lemma spiral_loop_fuel (text : str) (start boundary : Z) :
  forall n m pos,
    (Z.to_nat (start - boundary - pos) <= n)%nat ->
    (Z.to_nat (start - boundary - pos) <= m)%nat ->
    spiral_loop self n text start boundary pos
    = spiral_loop self m text start boundary pos.
Proof.
  induction n as [|n IH]; intros m pos Hn Hm.
  - assert (Hg : (start - pos >? boundary) = false)
      by (rewrite Z.gtb_ltb; apply Z.ltb_ge; lia).
    destruct m; simpl; [reflexivity | rewrite Hg; reflexivity].
  - simpl. destruct (start - pos >? boundary) eqn:Hg.
    + destruct m as [|m]; [apply Z.gtb_lt in Hg; lia|].
      simpl. rewrite Hg. apply Z.gtb_lt in Hg.
      rewrite (IH m (pos + 1)) by lia. reflexivity.
    + destruct m; simpl; [reflexivity | rewrite Hg; reflexivity].
Qed.

Lemma thirds (n : Z) : 0 <= n -> 0 <= n / 3 /\ 2 * (n / 2) - n / 3 <= n.
Proof.
  intros Hn.
  pose proof (Z.div_pos n 3 Hn ltac:(lia)).
  pose proof (Z.mul_div_le n 2 ltac:(lia)). lia.
Qed.

Lemma spiral_search_no_raise (text : str) (e : exn) :
  snd (spiral_search self text) <> Raise e.
Proof.
  unfold spiral_search.
  destruct (thirds (len text) (len_nonneg text)) as [Hb Hm].
  exact (proj2 (spiral_loop_in_bounds text _ _ Hb Hm _ 0 ltac:(lia)) e).
Qed.

(** C9.  In the spiral search of [split_page_by_max_tokens] every index at
    which the text is read ([start - pos] and [start + pos]) lies in
    [0, len(text)), for every text, so that no access raises
    [IndexError]. *)
Theorem spiral_search_accesses_in_bounds (text : str) :
  Forall (fun i => 0 <= i < len text) (fst (spiral_search self text))
  /\ forall e, snd (spiral_search self text) <> Raise e.
Proof.
  unfold spiral_search.
  destruct (thirds (len text) (len_nonneg text)) as [Hb Hm].
  exact (spiral_loop_in_bounds text _ _ Hb Hm _ 0 ltac:(lia)).
Qed.

Lemma split_page_by_max_tokens_eq (fuel : nat) (page_num : PageNum)
  (text : str) :
  split_page_by_max_tokens count_tokens self (S fuel) page_num text
  = if Z.of_nat (count_tokens text) <=? max_tokens_per_section self
    then ([mkSplitPage page_num text], Returned)
    else
      match snd (spiral_search self text) with
      | Raise e => ([], Raised e)
      | Ok split_position =>
          gseq (split_page_by_max_tokens count_tokens self fuel page_num
                  (fst (halves text split_position)))
               (split_page_by_max_tokens count_tokens self fuel page_num
                  (snd (halves text split_position)))
      end.
Proof.
  simpl. destruct (_ <=? _); [reflexivity|].
  destruct (snd (spiral_search self text)); [|reflexivity].
  destruct (halves text a); reflexivity.
Qed.

Lemma ending_gseq_timeout (g1 g2 : gen) :
  ending g1 = Timeout -> ending (gseq g1 g2) = Timeout.
Proof. destruct g1 as [out1 o]; simpl; intros ->; reflexivity. Qed.

(** C1.  Every fragment yielded by [split_page_by_max_tokens], for every
    page number and text and however far the run gets, has at most
    [max_tokens_per_section] tokens. *)
Theorem split_page_by_max_tokens_within_budget
  (fuel : nat) (page_num : PageNum) (text : str) :
  Forall (fun f => Z.of_nat (count_tokens (sp_text f))
                   <= max_tokens_per_section self)
         (yielded (split_page_by_max_tokens count_tokens self fuel
                     page_num text)).
Proof.
  revert text. induction fuel as [|fuel IH]; intros text; simpl.
  - constructor.
  - destruct (Z.of_nat (count_tokens text) <=? max_tokens_per_section self)
      eqn:Hfit.
    + apply Z.leb_le in Hfit. repeat constructor. exact Hfit.
    + destruct (snd (spiral_search self text)) as [split_position | e];
        [|constructor].
      destruct (halves text split_position) as [first_half second_half].
      apply yielded_gseq; apply IH.
Qed.

(** Where the spiral search can stop: strictly inside the middle third. *)
Lemma spiral_loop_result (text : str) (start boundary : Z) :
  forall n pos r, 0 <= pos ->
    snd (spiral_loop self n text start boundary pos) = Ok r ->
    r = -1 \/ (boundary < r /\ r < 2 * start - boundary).
Proof.
  induction n as [|n IH]; intros pos r Hpos Hr; simpl in Hr.
  - injection Hr as <-. now left.
  - destruct (start - pos >? boundary) eqn:Hg;
      [|injection Hr as <-; now left].
    apply Z.gtb_lt in Hg.
    destruct (getitem text (start - pos)) as [c|e]; [|discriminate].
    destruct (char_in (sentence_endings self) c);
      [injection Hr as <-; right; lia|].
    destruct (getitem text (start + pos)) as [d|e]; [|discriminate].
    destruct (char_in (sentence_endings self) d);
      [injection Hr as <-; right; lia|].
    specialize (IH (pos + 1) r ltac:(lia)).
    destruct (spiral_loop self n text start boundary (pos + 1)) as [tr r'].
    exact (IH Hr).
Qed.

(** From three characters on, both halves are strictly shorter than the
    text. *)
Lemma halves_shorter (text : str) (split_position : Z) :
  3 <= len text ->
  snd (spiral_search self text) = Ok split_position ->
  len (fst (halves text split_position)) < len text
  /\ len (snd (halves text split_position)) < len text.
Proof.
  intros H3 Hs. unfold spiral_search in Hs.
  apply spiral_loop_result in Hs; [|lia].
  unfold halves. destruct (split_position >? 0) eqn:Hp; simpl fst; simpl snd;
    rewrite !len_slice; unfold clamp, DEFAULT_OVERLAP_PERCENT.
  - apply Z.gtb_lt in Hp.
    destruct (split_position + 1 <? 0) eqn:Hn;
      [apply Z.ltb_lt in Hn; lia|].
    destruct Hs as [Hs|Hs]; [lia|].
    Z.to_euclidean_division_equations. lia.
  - destruct (len text / 2 + len text * 10 / 100 <? 0) eqn:Hn1;
      [apply Z.ltb_lt in Hn1; Z.to_euclidean_division_equations; lia|].
    destruct (len text / 2 - len text * 10 / 100 <? 0) eqn:Hn2;
      [apply Z.ltb_lt in Hn2; Z.to_euclidean_division_equations; lia|].
    Z.to_euclidean_division_equations. lia.
Qed.

(** When every text of at most two characters is within the budget, the
    recursion ends: a depth of one more than the length of the text is
    enough. *)
Lemma split_page_by_max_tokens_returns (page_num : PageNum) :
  (forall t, len t <= 2 ->
             Z.of_nat (count_tokens t) <= max_tokens_per_section self) ->
  forall fuel text, (length text < fuel)%nat ->
    ending (split_page_by_max_tokens count_tokens self fuel page_num text)
    = Returned.
Proof.
  intros Hsmall. induction fuel as [|fuel IH]; intros text Hf; [lia|].
  rewrite split_page_by_max_tokens_eq.
  destruct (Z.of_nat (count_tokens text) <=? max_tokens_per_section self)
    eqn:Hfit; [reflexivity|].
  apply Z.leb_gt in Hfit.
  assert (H3 : 3 <= len text).
  { destruct (Z_le_gt_dec (len text) 2) as [H2|H2]; [|lia].
    specialize (Hsmall text H2). lia. }
  destruct (snd (spiral_search self text)) as [split_position|e] eqn:Hs.
  - destruct (halves_shorter text split_position H3 Hs) as [H1 H2].
    unfold len in H1, H2.
    rewrite ending_gseq_returned; apply IH; lia.
  - exfalso. exact (spiral_search_no_raise text e Hs).
Qed.

Lemma split_empty_ending (page_num : PageNum) (fuel : nat) :
  ending (split_page_by_max_tokens count_tokens self fuel page_num [])
    = Returned
  \/ ending (split_page_by_max_tokens count_tokens self fuel page_num [])
    = Timeout.
Proof.
  induction fuel as [|fuel IH]; [now right|].
  rewrite split_page_by_max_tokens_eq.
  destruct (Z.of_nat (count_tokens []) <=? max_tokens_per_section self);
    [now left|].
  change (snd (spiral_search self [])) with (@Ok Z (-1)). cbv iota.
  change (halves [] (-1)) with (@nil char, @nil char). simpl fst; simpl snd.
  destruct IH as [IH|IH].
  - rewrite ending_gseq_returned by exact IH. now left.
  - right. apply ending_gseq_timeout, IH.
Qed.

(** C2.  On a text of one character that is over the budget the second
    half is the text itself, and the recursion never ends: whatever depth
    it is given, the run is cut off. *)
Theorem split_page_by_max_tokens_single_char_diverges
  (page_num : PageNum) (c : char)
  (Hover : max_tokens_per_section self < Z.of_nat (count_tokens [c]))
  (fuel : nat) :
  ending (split_page_by_max_tokens count_tokens self fuel page_num [c])
  = Timeout.
Proof.
  induction fuel as [|fuel IH]; [reflexivity|].
  rewrite split_page_by_max_tokens_eq.
  destruct (Z.of_nat (count_tokens [c]) <=? max_tokens_per_section self)
    eqn:Hfit; [apply Z.leb_le in Hfit; lia|].
  change (snd (spiral_search self [c])) with (@Ok Z (-1)). cbv iota.
  change (halves [c] (-1)) with (@nil char, [c]). simpl fst; simpl snd.
  destruct (split_empty_ending page_num fuel) as [He|He].
  - rewrite ending_gseq_returned by exact He. exact IH.
  - apply ending_gseq_timeout, He.
Qed.

(** The same happens on a text of two characters that ends with a sentence
    ending: the search stops on the last character and the first half is
    the whole text. *)
Lemma split_page_by_max_tokens_two_chars_diverges
  (page_num : PageNum) (c d : char) :
  char_in (sentence_endings self) d = true ->
  max_tokens_per_section self < Z.of_nat (count_tokens [c; d]) ->
  forall fuel,
    ending (split_page_by_max_tokens count_tokens self fuel page_num [c; d])
    = Timeout.
Proof.
  intros Hd Hover. induction fuel as [|fuel IH]; [reflexivity|].
  rewrite split_page_by_max_tokens_eq.
  destruct (Z.of_nat (count_tokens [c; d]) <=? max_tokens_per_section self)
    eqn:Hfit; [apply Z.leb_le in Hfit; lia|].
  assert (Hs : snd (spiral_search self [c; d]) = Ok 1).
  { unfold spiral_search. simpl. rewrite Hd. reflexivity. }
  rewrite Hs.
  change (halves [c; d] 1) with ([c; d], @nil char). simpl fst; simpl snd.
  apply ending_gseq_timeout, IH.
Qed.

End TokenSplitter.

(** The one-character run at a budget of no token, with a counter that
    gives every character one token. *)
Lemma split_page_by_max_tokens_single_char_diverges_witness :
  ending (SentenceTextSplitter.split_page_by_max_tokens
            Examples.one_token_per_char (SentenceTextSplitter.init 0) 1000
            (PInt 0) (lit "a"))
  = Timeout.
Proof.
  apply (split_page_by_max_tokens_single_char_diverges
           Examples.one_token_per_char (SentenceTextSplitter.init 0)
           (PInt 0) 97%N).
  simpl. lia.
Defined.

(** ** Page attribution *)

Section FindPage.

Import SentenceTextSplitter.

Lemma offsets_from_nth (pages : list (Page str)) :
  forall lo i p,
    offsets_from lo pages = true -> nth_error pages i = Some p ->
    exists a, offset p = Some a /\ lo <= a.
Proof.
  induction pages as [|p0 rest IH]; intros lo i p Hord Hi.
  - destruct i; discriminate.
  - simpl in Hord. destruct (offset p0) as [o|] eqn:Ho; [|discriminate].
    apply andb_true_iff in Hord. destruct Hord as [Hlo Hrest].
    apply Z.leb_le in Hlo. destruct i as [|i]; simpl in Hi.
    + injection Hi as <-. eauto.
    + destruct (IH o i p Hrest Hi) as [a [Ha Hle]]. exists a. split; [assumption|lia].
Qed.

Lemma offsets_ordered_from (pages : list (Page str)) :
  offsets_ordered pages = true ->
  exists lo, offsets_from lo pages = true.
Proof.
  destruct pages as [|p rest]; simpl; [exists 0; reflexivity|].
  destruct (offset p) as [o|]; [|discriminate].
  intros H. exists o. rewrite Z.leb_refl. exact H.
Qed.

Lemma offsets_from_head_le (lo : Z) (p1 : Page str) (rest : list (Page str))
  (i : nat) (p : Page str) (o1 a : Z) :
  offsets_from lo (p1 :: rest) = true -> offset p1 = Some o1 ->
  nth_error (p1 :: rest) i = Some p -> offset p = Some a -> o1 <= a.
Proof.
  intros Hord Ho1 Hp Ha. simpl in Hord. rewrite Ho1 in Hord.
  apply andb_true_iff in Hord. destruct Hord as [_ Hr].
  destruct i as [|i]; simpl in Hp.
  - injection Hp as <-. assert (o1 = a) by congruence. lia.
  - destruct (offsets_from_nth _ _ i p Hr Hp) as [a' [Ha' Hl]].
    assert (a' = a) by congruence. lia.
Qed.

(** The scan finds the page whose range holds the offset. *)
Lemma find_page_contains (pages : list (Page str)) (off : Z) :
  forall lo i p q a b,
    offsets_from lo pages = true ->
    nth_error pages i = Some p -> nth_error pages (S i) = Some q ->
    offset p = Some a -> offset q = Some b -> a <= off < b ->
    find_page pages off = Ok (page_num p).
Proof.
  induction pages as [|p0 rest IH]; intros lo i p q a b Hord Hp Hq Ha Hb Hin.
  - destruct i; discriminate.
  - simpl in Hord. destruct (offset p0) as [o0|] eqn:Ho0; [|discriminate].
    apply andb_true_iff in Hord. destruct Hord as [_ Hrest].
    destruct rest as [|p1 rest'].
    { destruct i; discriminate. }
    destruct i as [|i].
    + simpl in Hp, Hq. injection Hp as <-. injection Hq as <-.
      simpl. rewrite Ho0, Hb. simpl.
      assert (E : o0 = a) by congruence. subst o0.
      replace (a <=? off) with true by (symmetry; apply Z.leb_le; lia).
      replace (off <? b) with true by (symmetry; apply Z.ltb_lt; lia).
      reflexivity.
    + change (nth_error (p0 :: p1 :: rest') (S i))
        with (nth_error (p1 :: rest') i) in Hp.
      change (nth_error (p0 :: p1 :: rest') (S (S i)))
        with (nth_error (p1 :: rest') (S i)) in Hq.
      destruct (offsets_from_nth _ _ 0%nat p1 Hrest eq_refl) as [o1 [Ho1 _]].
      pose proof (offsets_from_head_le _ _ _ _ _ _ _ Hrest Ho1 Hp Ha) as Hle.
      change (find_page (p0 :: p1 :: rest') off)
        with (ge <- offset_ge off (offset p0) ;;
              hit <- (if ge then offset_lt off (offset p1) else Ok false) ;;
              if hit then Ok (page_num p0) else find_page (p1 :: rest') off).
      rewrite Ho0, Ho1. simpl bind.
      replace (off <? o1) with false by (symmetry; apply Z.ltb_ge; lia).
      destruct (o0 <=? off); simpl bind; cbv iota;
        exact (IH o0 i p q a b Hrest Hp Hq Ha Hb Hin).
Qed.

(** An offset at or past the start of the last page goes to the last
    page. *)
Lemma find_page_last (pages : list (Page str)) (off : Z) :
  forall lo p a,
    offsets_from lo pages = true ->
    nth_error pages (length pages - 1) = Some p ->
    offset p = Some a -> a <= off ->
    find_page pages off = Ok (page_num p).
Proof.
  induction pages as [|p0 rest IH]; intros lo p a Hord Hp Ha Hin.
  - discriminate.
  - simpl in Hord. destruct (offset p0) as [o0|] eqn:Ho0; [|discriminate].
    apply andb_true_iff in Hord. destruct Hord as [_ Hrest].
    destruct rest as [|p1 rest'].
    { simpl in Hp. injection Hp as <-. reflexivity. }
    replace (length (p0 :: p1 :: rest') - 1)%nat
      with (S (length (p1 :: rest') - 1)) in Hp by (simpl; lia).
    change (nth_error (p0 :: p1 :: rest') (S (length (p1 :: rest') - 1)))
      with (nth_error (p1 :: rest') (length (p1 :: rest') - 1)) in Hp.
    destruct (offsets_from_nth _ _ 0%nat p1 Hrest eq_refl) as [o1 [Ho1 _]].
    pose proof (offsets_from_head_le _ _ _ _ _ _ _ Hrest Ho1 Hp Ha) as Hle.
    change (find_page (p0 :: p1 :: rest') off)
      with (ge <- offset_ge off (offset p0) ;;
            hit <- (if ge then offset_lt off (offset p1) else Ok false) ;;
            if hit then Ok (page_num p0) else find_page (p1 :: rest') off).
    rewrite Ho0, Ho1. simpl bind.
    replace (off <? o1) with false by (symmetry; apply Z.ltb_ge; lia).
    destruct (o0 <=? off); simpl bind; cbv iota;
      exact (IH o0 p a Hrest Hp Ha Hin).
Qed.

(** With offsets on every page of a non-empty list, the scan raises
    nothing. *)
Lemma find_page_total (pages : list (Page str)) (off : Z) :
  pages <> [] -> offsets_present pages = true ->
  exists page_num, find_page pages off = Ok page_num.
Proof.
  induction pages as [|p0 rest IH]; intros Hne Hpres; [congruence|].
  destruct rest as [|p1 rest']; [simpl; eauto|].
  change (find_page (p0 :: p1 :: rest') off)
    with (ge <- offset_ge off (offset p0) ;;
          hit <- (if ge then offset_lt off (offset p1) else Ok false) ;;
          if hit then Ok (page_num p0) else find_page (p1 :: rest') off).
  unfold offsets_present in Hpres. simpl in Hpres.
  destruct (offset p0) as [o0|]; [|discriminate].
  destruct (offset p1) as [o1|] eqn:Ho1; [|discriminate].
  simpl bind.
  assert (Hrest : offsets_present (p1 :: rest') = true).
  { unfold offsets_present. simpl. rewrite Ho1. exact Hpres. }
  destruct (o0 <=? off); simpl bind; [destruct (off <? o1)|]; eauto;
    apply IH; congruence.
Qed.

Lemma find_page_holds (pages : list (Page str)) (off : Z) (i : nat)
  (p : Page str) :
  offsets_ordered pages = true ->
  nth_error pages i = Some p -> page_holds pages i off ->
  find_page pages off = Ok (page_num p).
Proof.
  intros Hord Hp [p' [a [Hp' [Ha [Hle Hnext]]]]].
  assert (p' = p) by congruence. subst p'.
  destruct (offsets_ordered_from pages Hord) as [lo Hfrom].
  destruct Hnext as [Hlast | [q [b [Hq [Hb Hlt]]]]].
  - apply (find_page_last pages off lo p a Hfrom); try assumption.
    replace (length pages - 1)%nat with i by lia. exact Hp.
  - apply (find_page_contains pages off lo i p q a b Hfrom); try assumption.
    lia.
Qed.

(** C5, amended.  On pages whose offsets are present and never decrease,
    [find_page] returns the page number of the page whose half-open range
    holds the offset, returns the last page's number for an offset at or
    past the last page's start, and gives an offset equal to a page's start
    to that page when the page is the last one or its successor starts
    strictly later. *)
Theorem find_page_attribution (pages : list (Page str)) (off : Z)
  (Hord : offsets_ordered pages = true) :
  (forall i p q a b,
      nth_error pages i = Some p -> nth_error pages (S i) = Some q ->
      offset p = Some a -> offset q = Some b -> a <= off < b ->
      find_page pages off = Ok (page_num p))
  /\ (forall p a,
        nth_error pages (length pages - 1) = Some p ->
        offset p = Some a -> a <= off ->
        find_page pages off = Ok (page_num p))
  /\ (forall i p,
        nth_error pages i = Some p -> offset p = Some off ->
        (S i = length pages
         \/ exists q b, nth_error pages (S i) = Some q
                        /\ offset q = Some b /\ off < b) ->
        find_page pages off = Ok (page_num p)).
Proof.
  destruct (offsets_ordered_from pages Hord) as [lo Hfrom].
  split; [|split].
  - intros i p q a b. apply (find_page_contains pages off lo); assumption.
  - intros p a. apply (find_page_last pages off lo); assumption.
  - intros i p Hp Ho Hnext.
    apply (find_page_holds pages off i p Hord Hp).
    exists p, off. repeat split; try assumption. lia.
Qed.

End FindPage.

(** On the two short pages, offset 13 is the start of page 1 and goes to
    page 1. *)
Lemma find_page_attribution_witness :
  SentenceTextSplitter.find_page Examples.hello_pages 13 = Ok (PInt 1).
Proof.
  apply (proj2 (proj2 (find_page_attribution Examples.hello_pages 13
                         eq_refl))
           1%nat (mkPage (PInt 1) (Some 13) (lit "Bye now."))).
  - reflexivity.
  - reflexivity.
  - left. reflexivity.
Defined.

(** C5 as stated fails when a page is empty: the pages are ordered, offset
    0 is the start of page 0, and [find_page] gives it to page 1. *)
Lemma find_page_tie_counterexample :
  offsets_ordered Examples.empty_first_page = true
  /\ nth_error Examples.empty_first_page 0
     = Some (mkPage (PInt 0) (Some 0) (lit ""))
  /\ SentenceTextSplitter.find_page Examples.empty_first_page 0
     = Ok (PInt 1)
  /\ SentenceTextSplitter.find_page Examples.empty_first_page 0
     <> Ok (page_num (mkPage (PInt 0) (Some 0) (lit ""))).
Proof.
  repeat split; try reflexivity. discriminate.
Qed.

(** ** The sentence splitter on a short text *)

Section ShortText.

Import SentenceTextSplitter.

Variable count_tokens : str -> nat.
Variable self : t.

Lemma len_zero_nil {A : Type} (s : list A) : len s = 0 <-> s = [].
Proof.
  unfold len. destruct s; simpl; split; intros H;
    try reflexivity; try discriminate; lia.
Qed.

(** C6.  When the pages have offsets and their concatenated text is not
    blank, is at most [max_section_length] long and has at most
    [max_tokens_per_section] tokens, [split_pages] yields exactly one
    fragment: the whole text, with the page number [find_page] gives to
    offset 0, which on ordered pages is the number of the page that holds
    offset 0. *)
Theorem split_pages_short_text (fuel : nat) (pages : list (Page str))
  (Hpres : offsets_present pages = true)
  (Hne : strip (join_empty (map text pages)) <> [])
  (Hlen : len (join_empty (map text pages)) <= max_section_length self)
  (Htok : Z.of_nat (count_tokens (join_empty (map text pages)))
          <= max_tokens_per_section self) :
  exists pn,
    find_page pages 0 = Ok pn
    /\ split_pages count_tokens self (S fuel) pages
       = ([mkSplitPage pn (join_empty (map text pages))], Returned)
    /\ (offsets_ordered pages = true ->
        forall i p, nth_error pages i = Some p -> page_holds pages i 0 ->
                    pn = page_num p).
Proof.
  assert (Hpages : pages <> []).
  { intros ->. apply Hne. reflexivity. }
  destruct (find_page_total pages 0 Hpages Hpres) as [pn Hpn].
  exists pn. split; [exact Hpn|]. split.
  - unfold split_pages.
    destruct (len (strip (join_empty (map text pages))) =? 0) eqn:Hblank.
    { apply Z.eqb_eq, len_zero_nil in Hblank. contradiction. }
    apply Z.leb_le in Hlen. rewrite Hlen, Hpn.
    apply Z.leb_le in Htok. simpl. rewrite Htok. reflexivity.
  - intros Hord i p Hp Hholds.
    pose proof (find_page_holds pages 0 i p Hord Hp Hholds) as H.
    congruence.
Qed.

(** The scenario of the two short pages, for every counter and every
    limits that are large enough. *)
Lemma split_pages_hello (fuel : nat) :
  21 <= max_section_length self ->
  Z.of_nat (count_tokens (lit "Hello world. Bye now."))
    <= max_tokens_per_section self ->
  split_pages count_tokens self (S fuel) Examples.hello_pages
  = ([mkSplitPage (PInt 0) (lit "Hello world. Bye now.")], Returned).
Proof.
  intros Hlen Htok. unfold split_pages.
  change (join_empty (map text Examples.hello_pages))
    with (lit "Hello world. Bye now.").
  change (len (strip (lit "Hello world. Bye now.")) =? 0) with false.
  change (len (lit "Hello world. Bye now.")) with 21.
  apply Z.leb_le in Hlen. rewrite Hlen.
  change (find_page Examples.hello_pages 0) with (Ok (PInt 0)).
  apply Z.leb_le in Htok.
  cbv beta iota.
  rewrite split_page_by_max_tokens_eq, Htok. reflexivity.
Qed.

End ShortText.

(** The two short pages with the limits of [__init__]: one fragment,
    the whole text, for page 0. *)
Lemma split_pages_short_text_witness :
  SentenceTextSplitter.split_pages Examples.one_token_per_char
    (SentenceTextSplitter.init 500) 1 Examples.hello_pages
  = ([mkSplitPage (PInt 0) (lit "Hello world. Bye now.")], Returned).
Proof.
  destruct (split_pages_short_text Examples.one_token_per_char
              (SentenceTextSplitter.init 500) 0 Examples.hello_pages)
    as [pn [Hpn [Hsplit _]]].
  - reflexivity.
  - discriminate.
  - vm_compute. discriminate.
  - vm_compute. discriminate.
  - vm_compute in Hpn. injection Hpn as <-. exact Hsplit.
Defined.

(** ** Ranges and consecutive slices *)

Lemma ceil_div_step (a b : Z) : 0 < b -> ceil_div a b = ceil_div (a - b) b + 1.
Proof.
  intros Hb. unfold ceil_div.
  replace (a + b - 1) with (a - b + b - 1 + 1 * b) by lia.
  rewrite Z.div_add by lia. reflexivity.
Qed.

Lemma ceil_div_nonpos (a b : Z) : 0 < b -> a <= 0 -> ceil_div a b <= 0.
Proof.
  intros Hb Ha. unfold ceil_div.
  assert ((a + b - 1) / b < 1); [|lia].
  apply Z.div_lt_upper_bound; lia.
Qed.

Lemma ceil_div_pos (a b : Z) : 0 < b -> 0 < a -> 0 < ceil_div a b <= a.
Proof.
  intros Hb Ha. unfold ceil_div. split.
  - assert (1 <= (a + b - 1) / b); [|lia].
    apply Z.div_le_lower_bound; lia.
  - assert ((a + b - 1) / b < a + 1); [|lia].
    apply Z.div_lt_upper_bound; [lia|]. nia.
Qed.

(** [ceil_div a b] is the least number of blocks of [b] that cover [a]. *)
Lemma ceil_div_bounds (a b : Z) :
  0 < b -> (ceil_div a b - 1) * b < a <= ceil_div a b * b.
Proof.
  intros Hb. unfold ceil_div.
  pose proof (Z.div_mod (a + b - 1) b ltac:(lia)).
  pose proof (Z.mod_pos_bound (a + b - 1) b Hb). nia.
Qed.

Lemma range_loop_up (stop step : Z) :
  0 < step ->
  forall n i,
    (Z.to_nat (ceil_div (stop - i) step) <= n)%nat ->
    range_loop n i stop step
    = map (fun k => i + Z.of_nat k * step)
          (seq 0 (Z.to_nat (ceil_div (stop - i) step))).
Proof.
  intros Hstep. induction n as [|n IH]; intros i Hn.
  - replace (Z.to_nat (ceil_div (stop - i) step)) with 0%nat by lia.
    reflexivity.
  - simpl. replace (0 <? step) with true by (symmetry; apply Z.ltb_lt; lia).
    destruct (i <? stop) eqn:Hi.
    + apply Z.ltb_lt in Hi.
      rewrite (ceil_div_step (stop - i) step Hstep) in *.
      replace (stop - i - step) with (stop - (i + step)) in * by lia.
      assert (Hc : 0 <= ceil_div (stop - (i + step)) step).
      { pose proof (ceil_div_step (stop - i) step Hstep) as E.
        replace (stop - i - step) with (stop - (i + step)) in E by lia.
        pose proof (ceil_div_pos (stop - i) step Hstep ltac:(lia)). lia. }
      rewrite Z2Nat.inj_add in * by lia.
      change (Z.to_nat 1) with 1%nat in *.
      rewrite Nat.add_1_r in *.
      rewrite IH by lia.
      simpl. f_equal; [lia|].
      rewrite <- seq_shift, map_map. apply map_ext. intros k. lia.
    + apply Z.ltb_ge in Hi.
      pose proof (ceil_div_nonpos (stop - i) step Hstep ltac:(lia)).
      replace (Z.to_nat (ceil_div (stop - i) step)) with 0%nat by lia.
      reflexivity.
Qed.

(** For a positive step, [range(0, stop, step)] is [0, step, 2*step, ...],
    [ceil(stop / step)] values. *)
Lemma range_up (stop step : Z) :
  0 < step ->
  range 0 stop step
  = map (fun k => Z.of_nat k * step)
        (seq 0 (Z.to_nat (ceil_div stop step))).
Proof.
  intros Hstep. unfold range.
  rewrite (range_loop_up stop step Hstep).
  - rewrite Z.sub_0_r. apply map_ext. intros k. lia.
  - rewrite !Z.sub_0_r.
    destruct (Z_le_gt_dec stop 0) as [H|H].
    + pose proof (ceil_div_nonpos stop step Hstep H). lia.
    + pose proof (ceil_div_pos stop step Hstep ltac:(lia)). lia.
Qed.

Lemma firstn_plus {A : Type} (l : list A) (n m : nat) :
  firstn (n + m) l = firstn n l ++ firstn m (skipn n l).
Proof.
  revert l. induction n as [|n IH]; intros l; [reflexivity|].
  destruct l as [|x l]; simpl.
  - rewrite firstn_nil. reflexivity.
  - rewrite IH. reflexivity.
Qed.

(** [s[a:b]] for bounds that are not negative. *)
Lemma slice_nonneg {A : Type} (s : list A) (a b : Z) :
  0 <= a -> 0 <= b ->
  slice s (Some a) (Some b)
  = firstn (Z.to_nat (Z.min b (len s)) - Z.to_nat (Z.min a (len s)))
           (skipn (Z.to_nat (Z.min a (len s))) s).
Proof.
  intros Ha Hb. unfold slice, clamp.
  replace (a <? 0) with false by (symmetry; apply Z.ltb_ge; lia).
  replace (b <? 0) with false by (symmetry; apply Z.ltb_ge; lia).
  pose proof (len_nonneg s). f_equal. lia.
Qed.

Lemma slice_app {A : Type} (s : list A) (a b c : Z) :
  0 <= a <= b -> b <= c ->
  slice s (Some a) (Some b) ++ slice s (Some b) (Some c)
  = slice s (Some a) (Some c).
Proof.
  intros Hab Hbc. rewrite !slice_nonneg by lia.
  pose proof (len_nonneg s) as Hn.
  set (A' := Z.to_nat (Z.min a (len s))).
  set (B' := Z.to_nat (Z.min b (len s))).
  set (C' := Z.to_nat (Z.min c (len s))).
  assert (HAB : (A' <= B')%nat) by (unfold A', B'; lia).
  assert (HBC : (B' <= C')%nat) by (unfold B', C'; lia).
  replace (C' - A')%nat with ((B' - A') + (C' - B'))%nat by lia.
  rewrite firstn_plus, skipn_skipn.
  replace (B' - A' + A')%nat with B' by lia. reflexivity.
Qed.

Lemma slice_whole {A : Type} (s : list A) (b : Z) :
  len s <= b -> slice s (Some 0) (Some b) = s.
Proof.
  intros Hb. pose proof (len_nonneg s) as Hn.
  rewrite slice_nonneg by lia.
  rewrite Z.min_r, Z.min_l by lia. simpl.
  rewrite Nat.sub_0_r. unfold len. rewrite Nat2Z.id. apply firstn_all.
Qed.

Lemma slice_empty {A : Type} (s : list A) (a : Z) :
  0 <= a -> slice s (Some a) (Some a) = [].
Proof.
  intros Ha. rewrite slice_nonneg by lia. rewrite Nat.sub_diag. reflexivity.
Qed.

(** Consecutive slices of [m] items, from the [j]-th on, put together. *)
Lemma concat_slices {A : Type} (s : list A) (m : Z) :
  0 < m ->
  forall c j,
    concat (map (fun i => slice s (Some i) (Some (i + m)))
                (map (fun k => Z.of_nat k * m) (seq j c)))
    = slice s (Some (Z.of_nat j * m)) (Some (Z.of_nat (j + c) * m)).
Proof.
  intros Hm. induction c as [|c IH]; intros j.
  - simpl. rewrite Nat.add_0_r. symmetry. apply slice_empty. lia.
  - simpl. rewrite IH.
    replace (Z.of_nat j * m + m) with (Z.of_nat (S j) * m) by lia.
    rewrite slice_app by nia. f_equal. f_equal. lia.
Qed.

(** What cutting a list into slices of [m] items along
    [range(0, len(s), m)] gives: [ceil(len(s) / m)] consecutive slices that
    make up the list, none empty, none longer than [m], and all but the
    last of [m] items. *)
Lemma chunks_spec {A : Type} (s : list A) (m : Z) :
  0 < m ->
  let starts := range 0 (len s) m in
  let chunks := map (fun i => slice s (Some i) (Some (i + m))) starts in
  starts = map (fun k => Z.of_nat k * m)
               (seq 0 (Z.to_nat (ceil_div (len s) m)))
  /\ len chunks = ceil_div (len s) m
  /\ concat chunks = s
  /\ Forall (fun chunk => 1 <= len chunk <= m) chunks
  /\ (forall k chunk, nth_error chunks k = Some chunk ->
                      (S k < length chunks)%nat -> len chunk = m).
Proof.
  intros Hm starts chunks.
  pose proof (len_nonneg s) as Hn.
  pose proof (ceil_div_bounds (len s) m Hm) as Hc.
  assert (Hc0 : 0 <= ceil_div (len s) m).
  { destruct (Z_le_gt_dec (len s) 0) as [H|H].
    - assert (len s = 0) by lia. unfold ceil_div.
      apply Z.div_pos; lia.
    - pose proof (ceil_div_pos (len s) m Hm ltac:(lia)). lia. }
  assert (Hstarts : starts = map (fun k => Z.of_nat k * m)
                               (seq 0 (Z.to_nat (ceil_div (len s) m))))
    by (apply range_up; exact Hm).
  split; [exact Hstarts|]. split; [|split; [|split]].
  - unfold chunks, len at 1. rewrite length_map, Hstarts, length_map, length_seq.
    lia.
  - unfold chunks. rewrite Hstarts, concat_slices by exact Hm.
    simpl. apply slice_whole. lia.
  - unfold chunks. rewrite Hstarts. apply Forall_forall. intros chunk Hin.
    apply in_map_iff in Hin. destruct Hin as [i [<- Hin]].
    apply in_map_iff in Hin. destruct Hin as [k [<- Hin]].
    apply in_seq in Hin. rewrite len_slice. unfold clamp.
    replace (Z.of_nat k * m <? 0) with false
      by (symmetry; apply Z.ltb_ge; nia).
    replace (Z.of_nat k * m + m <? 0) with false
      by (symmetry; apply Z.ltb_ge; nia).
    nia.
  - intros k chunk Hk Hlast. unfold chunks in Hk, Hlast.
    rewrite length_map, Hstarts, length_map, length_seq in Hlast.
    rewrite Hstarts, !nth_error_map in Hk.
    rewrite nth_error_seq in Hk.
    destruct (k <? Z.to_nat (ceil_div (len s) m))%nat eqn:Hlt;
      [|discriminate].
    simpl in Hk. injection Hk as <-.
    rewrite len_slice. unfold clamp.
    replace (Z.of_nat k * m <? 0) with false
      by (symmetry; apply Z.ltb_ge; nia).
    replace (Z.of_nat k * m + m <? 0) with false
      by (symmetry; apply Z.ltb_ge; nia).
    nia.
Qed.

(** ** The length-only splitter *)

Section Simple.

Import SimpleTextSplitter.

Variable self : t.

Lemma simple_split_pages_long (pages : list (Page str)) :
  0 < max_object_length self ->
  strip (join_empty (map text pages)) <> [] ->
  max_object_length self < len (join_empty (map text pages)) ->
  split_pages self pages
  = (map (fun k =>
            mkSplitPage (PInt (Z.of_nat k))
              (slice (join_empty (map text pages))
                 (Some (Z.of_nat k * max_object_length self))
                 (Some (Z.of_nat k * max_object_length self
                        + max_object_length self))))
         (seq 0 (Z.to_nat (ceil_div (len (join_empty (map text pages)))
                             (max_object_length self)))),
     Returned).
Proof.
  intros Hpos Hne Hlong. unfold split_pages.
  destruct (len (strip (join_empty (map text pages))) =? 0) eqn:Hblank.
  { apply Z.eqb_eq, len_zero_nil in Hblank. contradiction. }
  replace (len (join_empty (map text pages)) <=? max_object_length self)
    with false by (symmetry; apply Z.leb_gt; lia).
  replace (max_object_length self =? 0)
    with false by (symmetry; apply Z.eqb_neq; lia).
  rewrite range_up by exact Hpos. rewrite map_map. f_equal.
  apply map_ext. intros k. rewrite Z.div_mul by lia. reflexivity.
Qed.

(** C7.  For a positive [max_object_length]: pages whose text is blank
    yield nothing; a text longer than [max_object_length] yields
    [ceil(length / max_object_length)] fragments, the [k]-th being the slice
    of [max_object_length] characters that starts at
    [k * max_object_length], numbered [k]; these slices put together are
    the text, each has [max_object_length] characters except the last,
    which may be shorter; and in every case no fragment is longer than
    [max_object_length]. *)
Theorem simple_split_pages_spec (pages : list (Page str))
  (Hpos : 0 < max_object_length self) :
  let all_text := join_empty (map text pages) in
  let m := max_object_length self in
  let frags := yielded (split_pages self pages) in
  ending (split_pages self pages) = Returned
  /\ (strip all_text = [] -> frags = [])
  /\ (strip all_text <> [] -> m < len all_text ->
      len frags = ceil_div (len all_text) m
      /\ (forall k, (k < length frags)%nat ->
            nth_error frags k
            = Some (mkSplitPage (PInt (Z.of_nat k))
                      (slice all_text (Some (Z.of_nat k * m))
                                      (Some (Z.of_nat k * m + m)))))
      /\ concat (map sp_text frags) = all_text
      /\ (forall k f, nth_error frags k = Some f ->
                      (S k < length frags)%nat -> len (sp_text f) = m))
  /\ Forall (fun f => len (sp_text f) <= m) frags.
Proof.
  intros all_text m frags.
  destruct (chunks_spec all_text m Hpos)
    as [Hstarts [Hcount [Hconcat [Hsizes Hfull]]]].
  destruct (len (strip all_text) =? 0) eqn:Hblank.
  { (* blank text *)
    assert (Hnone : split_pages self pages = ([], Returned)).
    { unfold split_pages. fold all_text. rewrite Hblank. reflexivity. }
    unfold frags. rewrite Hnone. simpl.
    apply Z.eqb_eq, len_zero_nil in Hblank.
    split; [reflexivity|]. split; [reflexivity|].
    split; [intros Hc; contradiction | constructor]. }
  assert (Hne : strip all_text <> []).
  { intros E. rewrite E in Hblank. discriminate. }
  destruct (Z_le_gt_dec (len all_text) m) as [Hshort | Hlong].
  { (* one fragment *)
    assert (Hone : split_pages self pages
                   = ([mkSplitPage (PInt 0) all_text], Returned)).
    { unfold split_pages. fold all_text. rewrite Hblank.
      fold m. replace (len all_text <=? m) with true
        by (symmetry; apply Z.leb_le; lia). reflexivity. }
    unfold frags. rewrite Hone. simpl.
    split; [reflexivity|]. split; [intros Hc; contradiction|].
    split; [intros _ Hc; lia|].
    apply Forall_cons; [exact Hshort | apply Forall_nil]. }
  assert (Hsplit := simple_split_pages_long pages Hpos Hne ltac:(fold all_text m; lia)).
  fold all_text m in Hsplit.
  assert (Htexts : map sp_text frags
                   = map (fun i => slice all_text (Some i) (Some (i + m)))
                         (range 0 (len all_text) m)).
  { unfold frags. rewrite Hsplit, Hstarts. simpl. rewrite !map_map.
    reflexivity. }
  assert (Hlenf : length frags = Z.to_nat (ceil_div (len all_text) m)).
  { unfold frags. rewrite Hsplit. simpl. rewrite length_map, length_seq.
    reflexivity. }
  split; [unfold frags; rewrite Hsplit; reflexivity|].
  split; [intros E; contradiction|].
  split.
  - intros _ _. split; [|split; [|split]].
    + rewrite <- Hcount, <- Htexts. unfold len. rewrite length_map.
      reflexivity.
    + intros k Hk. unfold frags. rewrite Hsplit. simpl.
      rewrite nth_error_map, nth_error_seq.
      replace (k <? Z.to_nat (ceil_div (len all_text) m))%nat with true
        by (symmetry; apply Nat.ltb_lt; lia).
      reflexivity.
    + rewrite Htexts. exact Hconcat.
    + intros k f Hk Hlast.
      apply (Hfull k (sp_text f)).
      * rewrite <- Htexts, nth_error_map, Hk. reflexivity.
      * rewrite <- Htexts, length_map. exact Hlast.
  - rewrite <- Htexts in Hsizes. rewrite Forall_map in Hsizes.
    eapply Forall_impl; [|exact Hsizes]. simpl. intros f Hf. lia.
Qed.

End Simple.

(** Seven characters cut by three: fragments "abc", "def" and "g",
    numbered 0, 1 and 2. *)
Lemma simple_split_pages_spec_witness :
  yielded (SimpleTextSplitter.split_pages (SimpleTextSplitter.mk 3)
             [mkPage (PInt 7) (Some 0) (lit "abcd");
              mkPage (PInt 8) (Some 4) (lit "efg")])
  = [mkSplitPage (PInt 0) (lit "abc"); mkSplitPage (PInt 1) (lit "def");
     mkSplitPage (PInt 2) (lit "g")]
  /\ Forall (fun f => len (sp_text f) <= 3)
       (yielded (SimpleTextSplitter.split_pages (SimpleTextSplitter.mk 3)
                   [mkPage (PInt 7) (Some 0) (lit "abcd");
                    mkPage (PInt 8) (Some 4) (lit "efg")])).
Proof.
  split; [reflexivity|].
  apply (simple_split_pages_spec (SimpleTextSplitter.mk 3)
           [mkPage (PInt 7) (Some 0) (lit "abcd");
            mkPage (PInt 8) (Some 4) (lit "efg")]).
  simpl. lia.
Defined.

(** ** The tabular splitter *)

Section Excel.

Import ExcelSplitter.

Variable value : Type.
Variable str_of : value -> str.
Variable tabulate : list (list (tcell value)) -> str.

Local Abbreviation Worksheet := (Worksheet value).
Local Abbreviation cell_text := (cell_text value str_of).
Local Abbreviation sheet_rows := (sheet_rows value str_of).
Local Abbreviation get_sheet_data := (get_sheet_data value str_of).
Local Abbreviation split_sheet := (split_sheet value str_of tabulate).
Local Abbreviation split_pages := (split_pages value str_of tabulate).

(** The rows kept by [get_sheet_data] are the rows that are not blank. *)
Lemma sheet_rows_filter (rows : list (list (option value))) :
  sheet_rows rows
  = map (map cell_text) (filter (fun row => negb (blank_row str_of row)) rows).
Proof.
  induction rows as [|row rest IH]; [reflexivity|].
  simpl. unfold blank_row.
  destruct (strip (join_empty (map cell_text row))); simpl;
    rewrite IH; reflexivity.
Qed.

Lemma sheet_rows_blank (rows : list (list (option value))) :
  forallb (blank_row str_of) rows = true -> sheet_rows rows = [].
Proof.
  intros Hblank. rewrite sheet_rows_filter.
  induction rows as [|row rest IH]; [reflexivity|].
  simpl in *. apply andb_true_iff in Hblank. destruct Hblank as [Hrow Hrest].
  rewrite Hrow. simpl. exact (IH Hrest).
Qed.

(** A row whose cells are all absent or empty is blank. *)
Lemma empty_cells_blank (row : list (option value)) :
  Forall (fun c => cell_text c = []) row -> blank_row str_of row = true.
Proof.
  intros Hrow. unfold blank_row.
  replace (join_empty (map cell_text row)) with (@nil char); [reflexivity|].
  induction Hrow as [|c row Hc _ IH]; [reflexivity|].
  simpl. rewrite Hc. exact IH.
Qed.

Lemma yielded_split_pages_app (before after : list (Page Worksheet))
  (sheet_page : Page Worksheet) :
  yielded (split_pages (before ++ sheet_page :: after))
  = yielded (split_pages before) ++ split_sheet sheet_page
    ++ yielded (split_pages after).
Proof.
  unfold ExcelSplitter.split_pages, yielded. simpl.
  rewrite flat_map_app. reflexivity.
Qed.

Lemma notna_rows (rows : list (list str)) :
  map (map (fun cell => if pd_notna cell then cell else [])) rows = rows.
Proof.
  unfold pd_notna. induction rows as [|row rest IH]; [reflexivity|].
  simpl in *. rewrite IH, map_id. reflexivity.
Qed.

Lemma chunk_table_block (headers : list (tcell value))
  (rows : list (list str)) (start_row : Z) :
  chunk_table value tabulate headers rows start_row
  = block_table tabulate headers
      (slice rows (Some start_row) (Some (start_row + 50))).
Proof.
  unfold chunk_table, block_table, step. rewrite notna_rows. reflexivity.
Qed.

(** C8.  For every sheet record among the pages, the rows after the first
    that are not blank are cut into consecutive blocks of at most 50 rows;
    the sheet yields one fragment per block, [ceil(n / 50)] fragments for
    [n] such rows (3 for 120 rows), each the table of the header and of
    the block, and each with the page number of the sheet. *)
Theorem excel_split_pages_blocks (before after : list (Page Worksheet))
  (sheet_page : Page Worksheet) :
  let rows := filter (fun row => negb (blank_row str_of row))
                     (iter_rows_2 value (text sheet_page)) in
  let headers := snd (get_sheet_data (text sheet_page)) in
  exists blocks : list (list (list str)),
    yielded (split_pages (before ++ sheet_page :: after))
    = yielded (split_pages before)
      ++ map (fun block => mkSplitPage (page_num sheet_page)
                             (block_table tabulate headers block)) blocks
      ++ yielded (split_pages after)
    /\ concat blocks = map (map cell_text) rows
    /\ Forall (fun block => 1 <= len block <= 50) blocks
    /\ len blocks = ceil_div (len rows) 50
    /\ (len rows = 120 -> len blocks = 3).
Proof.
  intros rows headers.
  set (data := map (map cell_text) rows).
  destruct (chunks_spec data 50 ltac:(lia))
    as [_ [Hcount [Hconcat [Hsizes _]]]].
  assert (Hlen : len data = len rows).
  { unfold data, len. rewrite length_map. reflexivity. }
  exists (map (fun i => slice data (Some i) (Some (i + 50)))
              (range 0 (len data) 50)).
  split; [|split; [|split; [|split]]].
  - rewrite yielded_split_pages_app. f_equal. f_equal.
    unfold ExcelSplitter.split_sheet, ExcelSplitter.get_sheet_data.
    cbv beta iota zeta. rewrite sheet_rows_filter. fold rows. fold data.
    unfold step. rewrite map_map.
    apply map_ext. intros i. rewrite chunk_table_block. reflexivity.
  - exact Hconcat.
  - exact Hsizes.
  - rewrite Hcount, Hlen. reflexivity.
  - intros H120. rewrite Hcount, Hlen, H120. reflexivity.
Qed.

(** C10.  A sheet record whose rows after the first are all blank yields
    no fragment: what the pages yield is what the other pages yield. *)
Theorem excel_blank_sheet_yields_nothing
  (before after : list (Page Worksheet)) (sheet_page : Page Worksheet)
  (Hblank : forallb (blank_row str_of) (iter_rows_2 value (text sheet_page))
            = true) :
  split_sheet sheet_page = []
  /\ yielded (split_pages (before ++ sheet_page :: after))
     = yielded (split_pages before) ++ yielded (split_pages after).
Proof.
  assert (Hnone : split_sheet sheet_page = []).
  { unfold ExcelSplitter.split_sheet, ExcelSplitter.get_sheet_data.
    rewrite (sheet_rows_blank _ Hblank). reflexivity. }
  split; [exact Hnone|].
  rewrite yielded_split_pages_app, Hnone. reflexivity.
Qed.

End Excel.

(** The sheet with 120 rows of data yields three fragments, all with the
    name of the sheet. *)
Lemma excel_split_pages_blocks_witness :
  let frags :=
    yielded (ExcelSplitter.split_pages str (fun v => v) Examples.bars
               [mkPage (PStr (lit "Sheet1")) None Examples.sheet_120]) in
  length frags = 3%nat
  /\ Forall (fun f => sp_page_num f = PStr (lit "Sheet1")) frags.
Proof.
  destruct (excel_split_pages_blocks str (fun v => v) Examples.bars [] []
              (mkPage (PStr (lit "Sheet1")) None Examples.sheet_120))
    as [blocks [Hy [_ [_ [_ H120]]]]].
  specialize (H120 eq_refl).
  cbv zeta. change ([] ++ ?p :: []) with [p] in Hy. rewrite Hy.
  simpl. rewrite app_nil_r. split.
  - rewrite length_map. unfold len in H120. lia.
  - apply Forall_map. apply Forall_forall. reflexivity.
Defined.

(** The sheet whose rows hold nothing yields no fragment. *)
Lemma excel_blank_sheet_yields_nothing_witness :
  yielded (ExcelSplitter.split_pages str (fun v => v) Examples.bars
             [mkPage (PStr (lit "Sheet1")) None Examples.sheet_blank])
  = [].
Proof.
  exact (proj2 (excel_blank_sheet_yields_nothing str (fun v => v)
                  Examples.bars [] []
                  (mkPage (PStr (lit "Sheet1")) None Examples.sheet_blank)
                  eq_refl)).
Defined.

(** ** The windows of the sentence splitter *)

Lemma bind_ok {A B : Type} (m : res A) (k : A -> res B) (b : B) :
  bind m k = Ok b -> exists a, m = Ok a /\ k a = Ok b.
Proof. destruct m as [a|e]; simpl; [eauto | discriminate]. Qed.

Section Windows.

Import SentenceTextSplitter.

Variable self : t.

Local Abbreviation msl := (max_section_length self).
Local Abbreviation lim := (sentence_search_limit self).
Local Abbreviation ov := (section_overlap self).

(** The forward scan moves [end] forward, stays inside the text and inside
    the search limit, and remembers only positions it went over. *)
Lemma scan_end_spec (all_text : str) (start : Z) :
  forall n end_ last_word end' last_word',
    scan_end self n all_text start end_ last_word = Ok (end', last_word') ->
    end_ <= end'
    /\ end' <= Z.max end_ (len all_text)
    /\ end' - start - msl <= Z.max (end_ - start - msl) lim
    /\ (last_word' = last_word \/ end_ <= last_word' < end').
Proof.
  induction n as [|n IH]; intros end_ last_word end' last_word' H.
  - injection H as <- <-. lia.
  - cbn [scan_end] in H.
    destruct (end_ <? len all_text) eqn:H1; cbn [negb] in H;
      [|injection H as <- <-; lia].
    destruct (end_ - start - msl <? lim) eqn:H2; cbn [negb] in H;
      [|injection H as <- <-; lia].
    apply Z.ltb_lt in H1, H2.
    apply bind_ok in H. destruct H as [c [_ H]].
    destruct (char_in (sentence_endings self) c);
      [injection H as <- <-; lia|].
    apply IH in H. destruct (char_in (word_breaks self) c); lia.
Qed.

(** The number of iterations given to the forward scan is enough: a
    larger bound gives the same result. *)
Lemma scan_end_fuel (all_text : str) (start : Z) :
  forall n m end_ last_word,
    (Z.to_nat (len all_text - end_) <= n)%nat ->
    (Z.to_nat (len all_text - end_) <= m)%nat ->
    scan_end self n all_text start end_ last_word
    = scan_end self m all_text start end_ last_word.
Proof.
  induction n as [|n IH]; intros m end_ last_word Hn Hm.
  - assert (Hg : (end_ <? len all_text) = false) by (apply Z.ltb_ge; lia).
    destruct m; cbn [scan_end]; [reflexivity | rewrite Hg; reflexivity].
  - cbn [scan_end]. destruct (end_ <? len all_text) eqn:Hg.
    + destruct m as [|m]; [apply Z.ltb_lt in Hg; lia|].
      cbn [scan_end]. rewrite Hg. apply Z.ltb_lt in Hg. cbn [negb].
      destruct (negb (end_ - start - msl <? lim)); [reflexivity|].
      destruct (getitem all_text end_) as [c|e]; [|reflexivity].
      cbn [bind]. destruct (char_in (sentence_endings self) c);
        [reflexivity|].
      apply IH; lia.
    + destruct m; cbn [scan_end]; [reflexivity | rewrite Hg; reflexivity].
Qed.

(** The same for the backward scan. *)
Lemma scan_start_fuel (all_text : str) (end_ : Z) :
  forall n m start last_word,
    (Z.to_nat start <= n)%nat -> (Z.to_nat start <= m)%nat ->
    scan_start self n all_text end_ start last_word
    = scan_start self m all_text end_ start last_word.
Proof.
  induction n as [|n IH]; intros m start last_word Hn Hm.
  - assert (Hg : (start >? 0) = false)
      by (rewrite Z.gtb_ltb; apply Z.ltb_ge; lia).
    destruct m; cbn [scan_start]; [reflexivity | rewrite Hg; reflexivity].
  - cbn [scan_start]. destruct (start >? 0) eqn:Hg.
    + destruct m as [|m]; [apply Z.gtb_lt in Hg; lia|].
      cbn [scan_start]. rewrite Hg. apply Z.gtb_lt in Hg. cbn [negb].
      destruct (negb (start >? end_ - msl - 2 * lim)); [reflexivity|].
      destruct (getitem all_text start) as [c|e]; [|reflexivity].
      cbn [bind]. destruct (char_in (sentence_endings self) c);
        [reflexivity|].
      apply IH; lia.
    + destruct m; cbn [scan_start]; [reflexivity | rewrite Hg; reflexivity].
Qed.

(** The end of a window is inside the text, at least
    [max_section_length] after the start unless the text ends before, and
    at most one more than the search limit further. *)
Lemma window_end_spec (all_text : str) (start end_ : Z) :
  window_end self all_text start = Ok end_ ->
  end_ <= len all_text
  /\ Z.min (len all_text) (start + msl) <= end_
  /\ end_ <= start + msl + Z.max 0 lim + 1.
Proof.
  unfold window_end. intros H.
  apply bind_ok in H. destruct H as [e1 [H1 H]].
  assert (He1 : e1 <= len all_text
                /\ Z.min (len all_text) (start + msl) <= e1
                /\ e1 <= start + msl + Z.max 0 lim).
  { destruct (start + msl >? len all_text) eqn:Hclip.
    - apply Z.gtb_lt in Hclip. injection H1 as <-. lia.
    - rewrite Z.gtb_ltb in Hclip. apply Z.ltb_ge in Hclip.
      apply bind_ok in H1. destruct H1 as [[e0 lw] [Hscan H1]].
      apply scan_end_spec in Hscan.
      apply bind_ok in H1. destruct H1 as [fall_back [Hfb H1]].
      injection H1 as <-.
      destruct fall_back; [|lia].
      destruct (e0 <? len all_text); [|discriminate].
      apply bind_ok in Hfb. destruct Hfb as [c [_ Hfb]].
      injection Hfb as Hfb. apply andb_true_iff in Hfb.
      destruct Hfb as [_ Hlw]. apply Z.gtb_lt in Hlw. lia. }
  injection H as <-.
  destruct (e1 <? len all_text) eqn:Hlt;
    [apply Z.ltb_lt in Hlt | apply Z.ltb_ge in Hlt]; lia.
Qed.

(** The backward scan moves [start] backward, not below 0 and not below
    its limit, and remembers only positions it went over. *)
Lemma scan_start_spec (all_text : str) (end_ : Z) :
  forall n start last_word start' last_word',
    scan_start self n all_text end_ start last_word
    = Ok (start', last_word') ->
    start' <= start
    /\ (last_word' = last_word \/ start' < last_word' <= start)
    /\ (start' = start
        \/ (0 <= start' /\ end_ - msl - 2 * lim <= start')).
Proof.
  induction n as [|n IH]; intros start last_word start' last_word' H.
  - injection H as <- <-. lia.
  - cbn [scan_start] in H.
    destruct (start >? 0) eqn:H1; cbn [negb] in H;
      [|injection H as <- <-; lia].
    destruct (start >? end_ - msl - 2 * lim) eqn:H2; cbn [negb] in H;
      [|injection H as <- <-; lia].
    apply Z.gtb_lt in H1, H2.
    apply bind_ok in H. destruct H as [c [_ H]].
    destruct (char_in (sentence_endings self) c);
      [injection H as <- <-; lia|].
    apply IH in H. destruct (char_in (word_breaks self) c); lia.
Qed.

(** What follows the backward scan: the start is the position found, or
    the last word break, moved one forward unless it is 0. *)
Lemma window_start_after_scan (all_text : str) (start end_ a : Z) :
  window_start self all_text start end_ = Ok a ->
  exists start' last_word',
    scan_start self (Z.to_nat start) all_text end_ start (-1)
    = Ok (start', last_word')
    /\ (a = start' \/ a = start' + 1
        \/ (0 < last_word' /\ (a = last_word' \/ a = last_word' + 1))).
Proof.
  unfold window_start. intros H.
  apply bind_ok in H. destruct H as [[start' last_word'] [Hscan H]].
  exists start', last_word'. split; [exact Hscan|].
  apply bind_ok in H. destruct H as [c [_ H]]. injection H as <-.
  destruct (negb (char_in (sentence_endings self) c) && (last_word' >? 0))
    eqn:Hfb.
  - apply andb_true_iff in Hfb. destruct Hfb as [_ Hlw].
    apply Z.gtb_lt in Hlw.
    destruct (last_word' >? 0); lia.
  - destruct (start' >? 0); lia.
Qed.

(** The start of a window is at most one character after the position the
    loop was entered with, and not below both that position and the limit
    of the backward scan. *)
Lemma window_start_spec (all_text : str) (start end_ a : Z) :
  window_start self all_text start end_ = Ok a ->
  a <= start + 1
  /\ (start <= a \/ (0 <= a /\ end_ - msl - 2 * lim <= a)).
Proof.
  intros H. apply window_start_after_scan in H.
  destruct H as [start' [last_word' [Hscan Ha]]].
  apply scan_start_spec in Hscan. lia.
Qed.

Lemma window_spec (all_text : str) (start a e : Z) :
  window self all_text start = Ok (a, e) ->
  window_end self all_text start = Ok e
  /\ window_start self all_text start e = Ok a.
Proof.
  unfold window. intros H.
  apply bind_ok in H. destruct H as [e' [He H]].
  apply bind_ok in H. destruct H as [a' [Ha H]].
  injection H as <- <-. split; assumption.
Qed.

(** Where the next iteration starts: never after [end - section_overlap],
    and exactly there when the section has no unclosed figure. *)
Lemma next_start_spec (pages : list (Page str)) (section_text : str)
  (a e s2 : Z) :
  next_start self pages section_text a e = Ok s2 ->
  (unclosed_figure self section_text = false /\ s2 = e - ov)
  \/ (unclosed_figure self section_text = true
      /\ s2 = Z.min (e - ov) (a + rfind section_text (lit "<figure"))).
Proof.
  unfold next_start. destruct (unclosed_figure self section_text).
  - intros H. apply bind_ok in H. destruct H as [pn [_ H]].
    injection H as <-. right. split; reflexivity.
  - intros H. injection H as <-. left. split; reflexivity.
Qed.

(** C4, amended.  When an iteration of the loop of [split_pages] is
    followed by another one, the next start is [end - section_overlap] if
    the section has no unclosed figure; the start of the successor's range
    is at most one character after [end - section_overlap] and its end is
    not before [end], so the two ranges have at least
    [section_overlap - 1] characters in common. *)
Theorem consecutive_windows_overlap (pages : list (Page str))
  (all_text : str) (start a e start2 a2 e2 : Z)
  (Hov : ov <= msl) (Hlim : 0 <= lim)
  (Hguard : start + ov < len all_text)
  (Hw : window self all_text start = Ok (a, e))
  (Hnext : next_start self pages (slice all_text (Some a) (Some e)) a e
           = Ok start2)
  (Hguard2 : start2 + ov < len all_text)
  (Hw2 : window self all_text start2 = Ok (a2, e2)) :
  (unclosed_figure self (slice all_text (Some a) (Some e)) = false ->
   start2 = e - ov)
  /\ a2 <= e - ov + 1
  /\ e <= e2
  /\ ov - 1 <= range_overlap a e a2 e2.
Proof.
  apply window_spec in Hw. destruct Hw as [He Ha].
  apply window_spec in Hw2. destruct Hw2 as [He2 Ha2].
  apply window_end_spec in He, He2.
  apply window_start_spec in Ha, Ha2.
  apply next_start_spec in Hnext.
  assert (Hs2 : start2 <= e - ov) by (destruct Hnext as [[_ ->]|[_ ->]]; lia).
  assert (Hee : e <= e2).
  { destruct Hnext as [[_ E]|[Hfig E]]; [lia|].
    unfold unclosed_figure in Hfig. apply andb_true_iff in Hfig.
    destruct Hfig as [Hfig _]. apply Z.gtb_lt in Hfig. lia. }
  split; [|split; [|split]].
  - intros Hnofig. destruct Hnext as [[_ E]|[Hfig _]]; [exact E|congruence].
  - lia.
  - exact Hee.
  - unfold range_overlap. lia.
Qed.

End Windows.

(** Two iterations on the text of a figure, with the limits of
    [__init__]: the ranges [[0, 1101)] and [[418, 1617)]. *)
Lemma consecutive_windows_overlap_witness :
  let self := SentenceTextSplitter.init 500 in
  let all_text := Examples.long_figure in
  SentenceTextSplitter.window self all_text 0 = Ok (0, 1101)
  /\ SentenceTextSplitter.window self all_text 600 = Ok (418, 1617)
  /\ SentenceTextSplitter.section_overlap self - 1
     <= range_overlap 0 1101 418 1617.
Proof.
  cbv zeta. split; [vm_compute; reflexivity|].
  split; [vm_compute; reflexivity|].
  apply (consecutive_windows_overlap (SentenceTextSplitter.init 500)
           [mkPage (PInt 0) (Some 0) Examples.long_figure]
           Examples.long_figure 0 0 1101 600 418 1617).
  - vm_compute. discriminate.
  - vm_compute. discriminate.
  - vm_compute. reflexivity.
  - vm_compute. reflexivity.
  - vm_compute. reflexivity.
  - vm_compute. reflexivity.
  - vm_compute. reflexivity.
Defined.

(** C4 as stated fails: with the limits of [__init__], the text of two
    sentences is cut into the ranges [[0, 1001)] and [[902, 1200)], the
    first section has no figure, and the two ranges have 99 characters in
    common, one less than [section_overlap]. *)
Lemma overlap_counterexample :
  let self := SentenceTextSplitter.init 500 in
  let all_text := Examples.two_sentences in
  let pages := [mkPage (PInt 0) (Some 0) all_text] in
  SentenceTextSplitter.section_overlap self = 100
  /\ SentenceTextSplitter.window self all_text 0 = Ok (0, 1001)
  /\ SentenceTextSplitter.unclosed_figure self
       (slice all_text (Some 0) (Some 1001)) = false
  /\ SentenceTextSplitter.next_start self pages
       (slice all_text (Some 0) (Some 1001)) 0 1001 = Ok 901
  /\ SentenceTextSplitter.window self all_text 901 = Ok (902, 1200)
  /\ range_overlap 0 1001 902 1200 = 99
  /\ SentenceTextSplitter.split_pages Examples.no_token self 3 pages
     = ([mkSplitPage (PInt 0) (slice all_text (Some 0) (Some 1001));
         mkSplitPage (PInt 0) (slice all_text (Some 902) (Some 1200))],
        Returned).
Proof.
  cbv zeta. repeat split; vm_compute; reflexivity.
Qed.

Section WindowsTotal.

Import SentenceTextSplitter.

Variable self : t.

Local Abbreviation msl := (max_section_length self).
Local Abbreviation lim := (sentence_search_limit self).
Local Abbreviation ov := (section_overlap self).

Lemma scan_end_total (all_text : str) (start : Z) :
  forall n end_ last_word,
    0 <= end_ ->
    exists r, scan_end self n all_text start end_ last_word = Ok r.
Proof.
  induction n as [|n IH]; intros end_ last_word H0; cbn [scan_end]; [eauto|].
  destruct (end_ <? len all_text) eqn:H1; cbn [negb]; [|eauto].
  destruct (negb (end_ - start - msl <? lim)); [eauto|].
  apply Z.ltb_lt in H1.
  destruct (getitem_in_range all_text end_ ltac:(lia)) as [c ->].
  cbn [bind]. destruct (char_in (sentence_endings self) c); [eauto|].
  apply IH. lia.
Qed.

Lemma scan_start_total (all_text : str) (end_ : Z) :
  forall n start last_word,
    start < len all_text ->
    exists r, scan_start self n all_text end_ start last_word = Ok r.
Proof.
  induction n as [|n IH]; intros start last_word Hlt; cbn [scan_start];
    [eauto|].
  destruct (start >? 0) eqn:H1; cbn [negb]; [|eauto].
  destruct (negb (start >? end_ - msl - 2 * lim)); [eauto|].
  apply Z.gtb_lt in H1.
  destruct (getitem_in_range all_text start ltac:(lia)) as [c ->].
  cbn [bind]. destruct (char_in (sentence_endings self) c); [eauto|].
  apply IH. lia.
Qed.

(** In an iteration of the loop, with an overlap and a section length
    that are not negative, cutting the window reads the text only inside
    its bounds: no [IndexError]. *)
Lemma window_total (all_text : str) (start : Z) :
  0 <= ov -> 0 <= msl -> 0 <= start -> start + ov < len all_text ->
  exists a e, window self all_text start = Ok (a, e).
Proof.
  intros Hov Hmsl Hstart Hguard.
  assert (He : exists e, window_end self all_text start = Ok e).
  { unfold window_end.
    destruct (start + msl >? len all_text); cbn [bind]; [eauto|].
    destruct (scan_end_total all_text start
                (Z.to_nat (len all_text - (start + msl)))
                (start + msl) (-1) ltac:(lia)) as [[e0 lw] Hscan].
    rewrite Hscan. cbn [bind].
    apply scan_end_spec in Hscan.
    destruct (e0 <? len all_text) eqn:Hlt; cbn [bind]; [|eauto].
    apply Z.ltb_lt in Hlt.
    destruct (getitem_in_range all_text e0 ltac:(lia)) as [c ->].
    cbn [bind]. eauto. }
  destruct He as [e He]. unfold window. rewrite He. cbn [bind].
  unfold window_start.
  destruct (scan_start_total all_text e (Z.to_nat start) start (-1)
              ltac:(lia)) as [[s' lw] Hscan].
  rewrite Hscan. cbn [bind].
  apply scan_start_spec in Hscan.
  destruct (getitem_in_range all_text s' ltac:(lia)) as [c ->].
  cbn [bind]. eauto.
Qed.

End WindowsTotal.

(** ** Unclosed figures *)

Lemma starts_with_length (sub s : str) :
  starts_with sub s = true -> (length sub <= length s)%nat.
Proof.
  revert s. induction sub as [|x sub IH]; intros s H; simpl; [lia|].
  destruct s as [|y s]; [discriminate|].
  simpl in H. apply andb_true_iff in H. destruct H as [_ H].
  apply IH in H. simpl. lia.
Qed.

Lemma starts_with_head (x : char) (sub s : str) :
  starts_with (x :: sub) s = true -> nth_error s 0 = Some x.
Proof.
  destruct s as [|y s]; [discriminate|].
  simpl. intros H. apply andb_true_iff in H. destruct H as [H _].
  apply N.eqb_eq in H. congruence.
Qed.

(** What [rfind] returns is -1 or a position at which [sub] occurs. *)
Lemma rfind_from_spec (sub : str) :
  forall s k r,
    rfind_from sub s k = r ->
    r = -1
    \/ (k <= r /\ r - k <= len s
        /\ starts_with sub (skipn (Z.to_nat (r - k)) s) = true).
Proof.
  induction s as [|c rest IH]; intros k r H.
  - cbn [rfind_from] in H. destruct (starts_with sub []) eqn:Hs;
      [|now left].
    right. subst r. rewrite Z.sub_diag. simpl. split; [lia|].
    split; [unfold len; simpl; lia | exact Hs].
  - cbn [rfind_from] in H.
    destruct (0 <=? rfind_from sub rest (k + 1)) eqn:Hlater.
    + apply Z.leb_le in Hlater.
      destruct (IH (k + 1) r H) as [E | [H1 [H2 H3]]]; [lia|].
      right. split; [lia|]. split.
      * unfold len in *. simpl length. lia.
      * replace (Z.to_nat (r - k)) with (S (Z.to_nat (r - (k + 1)))) by lia.
        exact H3.
    + destruct (starts_with sub (c :: rest)) eqn:Hs; [|now left].
      right. subst r. rewrite Z.sub_diag. split; [lia|].
      split; [apply len_nonneg | exact Hs].
Qed.

(** No occurrence of [sub] lies after the position [rfind] returns. *)
Lemma rfind_from_last (sub : str) :
  forall s k j,
    0 <= k -> (j <= length s)%nat ->
    starts_with sub (skipn j s) = true ->
    k + Z.of_nat j <= rfind_from sub s k.
Proof.
  induction s as [|c rest IH]; intros k j Hk Hj Hs.
  - simpl in Hj. replace j with 0%nat in * by lia. simpl in Hs.
    cbn [rfind_from]. rewrite Hs. lia.
  - cbn [rfind_from].
    destruct j as [|j].
    + simpl in Hs.
      destruct (0 <=? rfind_from sub rest (k + 1)) eqn:Hlater.
      * destruct (rfind_from_spec sub rest (k + 1) _ eq_refl)
          as [E | [H1 _]]; [apply Z.leb_le in Hlater; lia | lia].
      * rewrite Hs. lia.
    + simpl in Hs, Hj.
      pose proof (IH (k + 1) j ltac:(lia) ltac:(lia) Hs) as H.
      replace (0 <=? rfind_from sub rest (k + 1)) with true
        by (symmetry; apply Z.leb_le; lia).
      lia.
Qed.

Lemma rfind_last (s sub : str) (j : nat) :
  (j <= length s)%nat -> starts_with sub (skipn j s) = true ->
  Z.of_nat j <= rfind s sub.
Proof.
  intros Hj Hs. unfold rfind.
  pose proof (rfind_from_last sub s 0 j ltac:(lia) Hj Hs). lia.
Qed.

(** A non-negative [s.rfind(sub)], for a [sub] that starts with [x], is a
    position of [s] that holds [x], with room for [sub] after it. *)
Lemma rfind_hit (s : str) (x : char) (sub : str) :
  0 <= rfind s (x :: sub) ->
  nth_error s (Z.to_nat (rfind s (x :: sub))) = Some x
  /\ rfind s (x :: sub) + len (x :: sub) <= len s.
Proof.
  intros Hr. unfold rfind in *.
  destruct (rfind_from_spec (x :: sub) s 0 _ eq_refl) as [E | [_ [Hle Hs]]];
    [lia|].
  rewrite Z.sub_0_r in *.
  split.
  - apply starts_with_head in Hs. rewrite nth_error_skipn in Hs.
    rewrite Nat.add_0_r in Hs. exact Hs.
  - apply starts_with_length in Hs. rewrite length_skipn in Hs.
    unfold len in *. lia.
Qed.

Lemma nth_error_slice {A : Type} (s : list A) (a e : Z) (k : nat) (c : A) :
  0 <= a <= len s -> 0 <= e ->
  nth_error (slice s (Some a) (Some e)) k = Some c ->
  nth_error s (Z.to_nat a + k) = Some c.
Proof.
  intros Ha He H. rewrite slice_nonneg in H by lia.
  rewrite nth_error_firstn in H.
  destruct (k <? _)%nat; [|discriminate].
  rewrite nth_error_skipn in H. rewrite Z.min_l in H by lia. exact H.
Qed.

Lemma getitem_nth {A : Type} (s : list A) (i : Z) (c : A) :
  0 <= i -> nth_error s (Z.to_nat i) = Some c -> getitem s i = Ok c.
Proof.
  intros Hi H. unfold getitem.
  assert (Hlt : (Z.to_nat i < length s)%nat)
    by (apply nth_error_Some; congruence).
  destruct (i <? 0) eqn:E; [apply Z.ltb_lt in E; lia|].
  cbv zeta. rewrite E.
  replace (len s <=? i) with false
    by (symmetry; apply Z.leb_gt; unfold len; lia).
  simpl. rewrite H. reflexivity.
Qed.

Section Figures.

Import SentenceTextSplitter.

Variable self : t.

Local Abbreviation msl := (max_section_length self).
Local Abbreviation lim := (sentence_search_limit self).
Local Abbreviation ov := (section_overlap self).

(** One turn of the backward scan, on a character that is not a sentence
    ending. *)
Lemma scan_start_step (all_text : str) (end_ start last_word : Z) (n : nat)
  (c : char) :
  0 < start -> end_ - msl - 2 * lim < start ->
  getitem all_text start = Ok c ->
  char_in (sentence_endings self) c = false ->
  scan_start self (S n) all_text end_ start last_word
  = scan_start self n all_text end_ (start - 1)
      (if char_in (word_breaks self) c then start else last_word).
Proof.
  intros H0 Hb Hc Hend. cbn [scan_start].
  replace (start >? 0) with true by (symmetry; apply Z.gtb_lt; lia).
  replace (start >? end_ - msl - 2 * lim) with true
    by (symmetry; apply Z.gtb_lt; lia).
  cbn [negb]. rewrite Hc. cbn [bind]. rewrite Hend. reflexivity.
Qed.

(** A window entered at a character that is neither a sentence ending nor
    a word break, and from which the backward scan can move, starts at or
    before that character. *)
Lemma window_start_not_after (all_text : str) (start end_ a : Z) (c : char) :
  0 < start -> end_ - msl - 2 * lim < start ->
  getitem all_text start = Ok c ->
  char_in (sentence_endings self) c = false ->
  char_in (word_breaks self) c = false ->
  window_start self all_text start end_ = Ok a ->
  a <= start.
Proof.
  intros H0 Hb Hc Hend Hwb Hw.
  apply window_start_after_scan in Hw.
  destruct Hw as [start' [last_word' [Hscan Ha]]].
  replace (Z.to_nat start) with (S (Z.to_nat (start - 1))) in Hscan by lia.
  rewrite (scan_start_step all_text end_ start (-1) _ c H0 Hb Hc Hend)
    in Hscan.
  rewrite Hwb in Hscan. apply scan_start_spec in Hscan. lia.
Qed.

(** C3.  When the text of a window has a last ["<figure"] after its last
    ["</figure"] and more than [2 * sentence_search_limit] into the window,
    the next start is not [end - section_overlap] but the smaller of it and
    of the position of that ["<figure"] in the whole text: it is at or
    before the tag. *)
Theorem unclosed_figure_pulls_start_back (pages : list (Page str))
  (all_text : str) (a e start2 : Z)
  (Hfar : 2 * lim
          < rfind (slice all_text (Some a) (Some e)) (lit "<figure"))
  (Hopen : rfind (slice all_text (Some a) (Some e)) (lit "</figure")
           < rfind (slice all_text (Some a) (Some e)) (lit "<figure"))
  (Hnext : next_start self pages (slice all_text (Some a) (Some e)) a e
           = Ok start2) :
  let figure :=
    a + rfind (slice all_text (Some a) (Some e)) (lit "<figure") in
  start2 = Z.min (e - ov) figure /\ start2 <= figure.
Proof.
  intros figure.
  assert (Hfig : unclosed_figure self (slice all_text (Some a) (Some e))
                 = true).
  { unfold unclosed_figure. apply andb_true_iff.
    split; apply Z.gtb_lt; lia. }
  apply next_start_spec in Hnext.
  destruct Hnext as [[Hno _] | [_ Hs2]]; [congruence|].
  fold figure in Hs2. split; [exact Hs2 | lia].
Qed.

(** What C3 means for the sections: under the same conditions, in an
    iteration of the loop, when the overlap is between 0 and
    [max_section_length], the search limit is at least 2 and ["<"] is
    neither a sentence ending nor a word break, the tag lies inside the
    window, and the next window, if the loop goes on, starts at or before
    the tag and ends after it. *)
Lemma unclosed_figure_next_window (pages : list (Page str))
  (all_text : str) (start a e start2 : Z) :
  0 <= ov -> ov <= msl -> 2 <= lim ->
  char_in (sentence_endings self) 60%N = false ->
  char_in (word_breaks self) 60%N = false ->
  0 <= start -> start + ov < len all_text ->
  window self all_text start = Ok (a, e) ->
  2 * lim < rfind (slice all_text (Some a) (Some e)) (lit "<figure") ->
  rfind (slice all_text (Some a) (Some e)) (lit "</figure")
    < rfind (slice all_text (Some a) (Some e)) (lit "<figure") ->
  next_start self pages (slice all_text (Some a) (Some e)) a e
    = Ok start2 ->
  let figure :=
    a + rfind (slice all_text (Some a) (Some e)) (lit "<figure") in
  figure + 7 <= e
  /\ forall a2 e2,
       start2 + ov < len all_text ->
       window self all_text start2 = Ok (a2, e2) ->
       a2 <= figure /\ figure + 7 <= e2.
Proof.
  intros Hov0 Hov Hlim Hlt_end Hlt_wb Hstart Hguard Hw Hfar Hopen Hnext
    figure.
  set (section_text := slice all_text (Some a) (Some e)) in *.
  set (lfs := rfind section_text (lit "<figure")) in *.
  assert (Hfig : unclosed_figure self section_text = true).
  { unfold unclosed_figure. fold lfs. apply andb_true_iff.
    split; apply Z.gtb_lt; lia. }
  apply next_start_spec in Hnext.
  destruct Hnext as [[Hno _] | [_ Hs2]]; [congruence|].
  fold lfs in Hs2. fold figure in Hs2.
  apply window_spec in Hw. destruct Hw as [He Ha].
  apply window_end_spec in He. pose proof Ha as Ha'.
  apply window_start_spec in Ha'.
  pose proof (len_nonneg all_text) as Hn.
  (* the tag inside the section, and the character at its position *)
  destruct (rfind_hit section_text 60%N (lit "figure")
              ltac:(change (0 <= lfs); lia))
    as [Hchar Hroom].
  change (60%N :: lit "figure") with (lit "<figure") in Hchar, Hroom.
  fold lfs in Hchar, Hroom. change (len (lit "<figure")) with 7 in Hroom.
  assert (Hsec : len section_text <= Z.max 0 (e - a)).
  { unfold section_text. rewrite len_slice. unfold clamp.
    destruct (e <? 0) eqn:E1; destruct (a <? 0) eqn:E2;
      try apply Z.ltb_lt in E1; try apply Z.ltb_ge in E1;
      try apply Z.ltb_lt in E2; try apply Z.ltb_ge in E2; lia. }
  assert (Hin : figure + 7 <= e) by (unfold figure; lia).
  split; [exact Hin|].
  intros a2 e2 Hguard2 Hw2.
  apply window_spec in Hw2. destruct Hw2 as [He2 Ha2].
  pose proof He2 as He2'. apply window_end_spec in He2'.
  assert (Hee : e <= e2) by lia.
  split; [|lia].
  destruct (Z_lt_le_dec start2 figure) as [Hlt | Hge].
  - apply window_start_spec in Ha2. lia.
  - assert (E : start2 = figure) by lia. rewrite E in *.
    apply (window_start_not_after all_text figure e2 a2 60%N);
      try assumption; try lia.
    apply getitem_nth; [unfold figure; lia|].
    unfold figure. rewrite Z2Nat.inj_add by lia.
    apply (nth_error_slice all_text a e); [lia | lia | exact Hchar].
Qed.

End Figures.

(** The text of a figure with the limits of [__init__]: the window
    [[0, 1101)] has an unclosed figure at 600, and the next start is 600,
    not 1001. *)
Lemma unclosed_figure_pulls_start_back_witness :
  let self := SentenceTextSplitter.init 500 in
  let all_text := Examples.long_figure in
  let section_text := slice all_text (Some 0) (Some 1101) in
  SentenceTextSplitter.window self all_text 0 = Ok (0, 1101)
  /\ rfind section_text (lit "<figure") = 600
  /\ 600 = Z.min (1101 - SentenceTextSplitter.section_overlap self)
                 (0 + rfind section_text (lit "<figure"))
  /\ 600 <= 0 + rfind section_text (lit "<figure").
Proof.
  cbv zeta. split; [vm_compute; reflexivity|].
  split; [vm_compute; reflexivity|].
  apply (unclosed_figure_pulls_start_back (SentenceTextSplitter.init 500)
           [mkPage (PInt 0) (Some 0) Examples.long_figure]
           Examples.long_figure 0 1101 600).
  - vm_compute. reflexivity.
  - vm_compute. reflexivity.
  - vm_compute. reflexivity.
Defined.

(** On the same text the loop goes on with the window [[418, 1617)],
    which holds the whole figure. *)
Lemma long_figure_sections :
  SentenceTextSplitter.split_pages Examples.no_token
    (SentenceTextSplitter.init 500) 3
    [mkPage (PInt 0) (Some 0) Examples.long_figure]
  = ([mkSplitPage (PInt 0)
        (slice Examples.long_figure (Some 0) (Some 1101));
      mkSplitPage (PInt 0)
        (slice Examples.long_figure (Some 418) (Some 1617))],
     Returned).
Proof. vm_compute. reflexivity. Qed.

(** ** A run of the loop that never ends *)

(** A figure that is never closed, in a text without sentence endings: the
    window entered at 401 is [[101, 1300)], its figure is at 401 again,
    and the loop starts from 401 for ever. *)
Lemma open_figure_loop (depth : nat) :
  forall n end_,
    ending (SentenceTextSplitter.sections_loop Examples.no_token
              (SentenceTextSplitter.init 500) n (S depth)
              [mkPage (PInt 0) (Some 0) Examples.open_figure]
              Examples.open_figure 401 end_)
    = Timeout.
Proof.
  induction n as [|n IH]; intros end_; [reflexivity|].
  cbn [SentenceTextSplitter.sections_loop].
  replace (401 + SentenceTextSplitter.section_overlap
                   (SentenceTextSplitter.init 500)
           <? len Examples.open_figure) with true
    by (vm_compute; reflexivity).
  replace (SentenceTextSplitter.window (SentenceTextSplitter.init 500)
             Examples.open_figure 401) with (@Ok (Z * Z) (101, 1300))
    by (vm_compute; reflexivity).
  cbv beta iota.
  replace (SentenceTextSplitter.next_start (SentenceTextSplitter.init 500)
             [mkPage (PInt 0) (Some 0) Examples.open_figure]
             (slice Examples.open_figure (Some 101) (Some 1300)) 101 1300)
    with (@Ok Z 401) by (vm_compute; reflexivity).
  change (SentenceTextSplitter.find_page
            [mkPage (PInt 0) (Some 0) Examples.open_figure] 101)
    with (Ok (PInt 0)).
  cbv beta iota.
  rewrite ending_gseq_returned; [apply IH | reflexivity].
Qed.

(** On that text [split_pages] cuts [[0, 1101)], goes back to the figure,
    and never returns, whatever the number of iterations it is given. *)
Lemma open_figure_never_returns (fuel : nat) :
  ending (SentenceTextSplitter.split_pages Examples.no_token
            (SentenceTextSplitter.init 500) fuel
            [mkPage (PInt 0) (Some 0) Examples.open_figure])
  = Timeout.
Proof.
  unfold SentenceTextSplitter.split_pages.
  replace (len (strip (join_empty
                 (map text [mkPage (PInt 0) (Some 0) Examples.open_figure])))
           =? 0) with false by (vm_compute; reflexivity).
  replace (len (join_empty
                  (map text [mkPage (PInt 0) (Some 0) Examples.open_figure]))
           <=? SentenceTextSplitter.max_section_length
                 (SentenceTextSplitter.init 500)) with false
    by (vm_compute; reflexivity).
  change (join_empty
            (map text [mkPage (PInt 0) (Some 0) Examples.open_figure]))
    with (Examples.open_figure ++ []).
  rewrite app_nil_r.
  destruct fuel as [|fuel]; [reflexivity|].
  cbn [SentenceTextSplitter.sections_loop].
  replace (0 + SentenceTextSplitter.section_overlap
                 (SentenceTextSplitter.init 500)
           <? len Examples.open_figure) with true
    by (vm_compute; reflexivity).
  replace (SentenceTextSplitter.window (SentenceTextSplitter.init 500)
             Examples.open_figure 0) with (@Ok (Z * Z) (0, 1101))
    by (vm_compute; reflexivity).
  cbv beta iota.
  replace (SentenceTextSplitter.next_start (SentenceTextSplitter.init 500)
             [mkPage (PInt 0) (Some 0) Examples.open_figure]
             (slice Examples.open_figure (Some 0) (Some 1101)) 0 1101)
    with (@Ok Z 401) by (vm_compute; reflexivity).
  change (SentenceTextSplitter.find_page
            [mkPage (PInt 0) (Some 0) Examples.open_figure] 0)
    with (Ok (PInt 0)).
  cbv beta iota.
  rewrite ending_gseq_returned; [apply open_figure_loop | reflexivity].
Qed.

(* ================================================================== *)
(** * Further properties *)

(** ** Pieces of a text *)

Lemma slice_to {A : Type} (s : list A) (hi : Z) :
  0 <= hi ->
  slice s None (Some hi) = firstn (Z.to_nat (Z.min hi (len s))) s.
Proof.
  intros H. unfold slice, clamp.
  replace (hi <? 0) with false by (symmetry; apply Z.ltb_ge; lia).
  rewrite Z.sub_0_r. reflexivity.
Qed.

Lemma slice_from {A : Type} (s : list A) (lo : Z) :
  0 <= lo ->
  slice s (Some lo) None = skipn (Z.to_nat (Z.min lo (len s))) s.
Proof.
  intros H. unfold slice, clamp.
  replace (lo <? 0) with false by (symmetry; apply Z.ltb_ge; lia).
  apply firstn_all2. rewrite length_skipn. unfold len. lia.
Qed.

Lemma occurs_at_whole (text : str) : occurs_at text 0 text.
Proof.
  unfold occurs_at. simpl. rewrite firstn_all. split; [reflexivity | lia].
Qed.

Lemma occurs_at_length (text : str) (o : nat) (piece : str) :
  occurs_at text o piece -> (length piece <= length text)%nat.
Proof. intros [_ H]. lia. Qed.

(** A piece of a prefix of the text is a piece of the text. *)
Lemma occurs_at_firstn (text : str) (k o : nat) (piece : str) :
  occurs_at (firstn k text) o piece -> occurs_at text o piece.
Proof.
  intros [Hp Hl]. rewrite length_firstn in Hl. split; [|lia].
  rewrite Hp at 1. rewrite skipn_firstn_comm, firstn_firstn.
  f_equal. lia.
Qed.

(** A piece of a suffix of the text is a piece of the text, further on. *)
Lemma occurs_at_skipn (text : str) (j o : nat) (piece : str) :
  (j <= length text)%nat ->
  occurs_at (skipn j text) o piece -> occurs_at text (j + o) piece.
Proof.
  intros Hj [Hp Hl]. rewrite length_skipn in Hl.
  split; [|lia]. rewrite Hp at 1. rewrite skipn_skipn.
  f_equal. f_equal. lia.
Qed.

Section TokenSplitterPieces.

Import SentenceTextSplitter.

Variable count_tokens : str -> nat.
Variable self : t.

(** The two halves are a prefix and a suffix of the text that meet or
    overlap. *)
Lemma halves_split (text : str) (split_position : Z) :
  exists j k,
    (j <= k <= length text)%nat
    /\ fst (halves text split_position) = firstn k text
    /\ snd (halves text split_position) = skipn j text.
Proof.
  pose proof (len_nonneg text) as Hn. unfold halves.
  destruct (split_position >? 0) eqn:Hp.
  - apply Z.gtb_lt in Hp.
    exists (Z.to_nat (Z.min (split_position + 1) (len text))),
           (Z.to_nat (Z.min (split_position + 1) (len text))).
    simpl fst; simpl snd.
    rewrite slice_to, slice_from by lia.
    unfold len in *. repeat split; lia.
  - unfold DEFAULT_OVERLAP_PERCENT.
    assert (H1 : 0 <= len text * 10 / 100) by (apply Z.div_pos; lia).
    assert (H2 : len text * 10 / 100 <= len text / 2)
      by (Z.to_euclidean_division_equations; lia).
    exists (Z.to_nat (Z.min (len text / 2 - len text * 10 / 100) (len text))),
           (Z.to_nat (Z.min (len text / 2 + len text * 10 / 100) (len text))).
    simpl fst; simpl snd.
    rewrite slice_to, slice_from by lia.
    unfold len in *. repeat split; lia.
Qed.

Lemma split_pieces (fuel : nat) (page_num : PageNum) (text : str) :
  Forall (fun f => sp_page_num f = page_num
                   /\ exists o, occurs_at text o (sp_text f))
         (yielded (split_page_by_max_tokens count_tokens self fuel
                     page_num text)).
Proof.
  revert text. induction fuel as [|fuel IH]; intros text; [constructor|].
  rewrite split_page_by_max_tokens_eq.
  destruct (Z.of_nat (count_tokens text) <=? max_tokens_per_section self).
  - apply Forall_cons; [|constructor]. split; [reflexivity|].
    exists 0%nat. apply occurs_at_whole.
  - destruct (snd (spiral_search self text)) as [sp|e]; [|constructor].
    destruct (halves_split text sp) as [j [k [Hjk [H1 H2]]]].
    apply yielded_gseq.
    + eapply Forall_impl; [|apply IH]. simpl.
      intros f [Hpn [o Ho]]. split; [exact Hpn|].
      exists o. rewrite H1 in Ho. exact (occurs_at_firstn _ _ _ _ Ho).
    + eapply Forall_impl; [|apply IH]. simpl.
      intros f [Hpn [o Ho]]. split; [exact Hpn|].
      exists (j + o)%nat. rewrite H2 in Ho.
      apply occurs_at_skipn; [lia | exact Ho].
Qed.

(** Every fragment [split_page_by_max_tokens] yields, however far the run
    gets, carries the page number it was given and is a contiguous piece
    of the text, so it is not longer than the text. *)
Theorem split_page_by_max_tokens_pieces (fuel : nat) (page_num : PageNum)
  (text : str) :
  Forall (fun f => sp_page_num f = page_num
                   /\ (exists o, occurs_at text o (sp_text f))
                   /\ len (sp_text f) <= len text)
         (yielded (split_page_by_max_tokens count_tokens self fuel
                     page_num text)).
Proof.
  eapply Forall_impl; [|apply split_pieces]. simpl.
  intros f [Hpn [o Ho]]. split; [exact Hpn|]. split; [eauto|].
  apply occurs_at_length in Ho. unfold len. lia.
Qed.

Lemma gseq_returned_inv (g1 g2 : gen) :
  ending (gseq g1 g2) = Returned ->
  ending g1 = Returned /\ ending g2 = Returned
  /\ yielded (gseq g1 g2) = yielded g1 ++ yielded g2.
Proof.
  destruct g1 as [out1 [ | e | ]]; simpl; intros H;
    try discriminate. repeat split. exact H.
Qed.

Lemma split_covers (fuel : nat) (page_num : PageNum) (text : str)
  (Hret : ending (split_page_by_max_tokens count_tokens self fuel
                    page_num text) = Returned)
  (i : nat) (Hi : (i < length text)%nat) :
  exists f o,
    In f (yielded (split_page_by_max_tokens count_tokens self fuel
                     page_num text))
    /\ occurs_at text o (sp_text f)
    /\ (o <= i < o + length (sp_text f))%nat.
Proof.
  revert text i Hret Hi.
  induction fuel as [|fuel IH]; intros text i Hret Hi; [discriminate|].
  rewrite split_page_by_max_tokens_eq in *.
  destruct (Z.of_nat (count_tokens text) <=? max_tokens_per_section self).
  - exists (mkSplitPage page_num text), 0%nat. simpl.
    split; [now left|]. split; [apply occurs_at_whole | lia].
  - destruct (snd (spiral_search self text)) as [sp|e]; [|discriminate].
    destruct (halves_split text sp) as [j [k [Hjk [H1 H2]]]].
    apply gseq_returned_inv in Hret. destruct Hret as [Hr1 [Hr2 Hy]].
    rewrite Hy.
    destruct (Nat.lt_ge_cases i k) as [Hik | Hik].
    + destruct (IH _ i Hr1) as [f [o [Hin [Ho Hio]]]].
      { rewrite H1, length_firstn. lia. }
      exists f, o. split; [apply in_or_app; now left|].
      split; [|exact Hio].
      rewrite H1 in Ho. exact (occurs_at_firstn _ _ _ _ Ho).
    + destruct (IH _ (i - j)%nat Hr2) as [f [o [Hin [Ho Hio]]]].
      { rewrite H2, length_skipn. lia. }
      exists f, (j + o)%nat. split; [apply in_or_app; now right|].
      split; [|lia].
      rewrite H2 in Ho. apply occurs_at_skipn; [lia | exact Ho].
Qed.

(** When [split_page_by_max_tokens] returns, nothing of the text is
    left out: every position of the text lies in a fragment, as a piece
    of the text. *)
Theorem split_page_by_max_tokens_covers (fuel : nat) (page_num : PageNum)
  (text : str)
  (Hret : ending (split_page_by_max_tokens count_tokens self fuel
                    page_num text) = Returned)
  (i : nat) (Hi : (i < length text)%nat) :
  exists f o,
    In f (yielded (split_page_by_max_tokens count_tokens self fuel
                     page_num text))
    /\ occurs_at text o (sp_text f)
    /\ (o <= i < o + length (sp_text f))%nat.
Proof. exact (split_covers fuel page_num text Hret i Hi). Qed.

(** What the spiral search returns, from any value of [pos]: -1 when no
    position it looks at holds a sentence ending, else the first position
    that does, in the order left then right at each distance. *)
Lemma spiral_loop_first (text : str) (start boundary : Z) :
  forall n pos r,
    (Z.to_nat (start - boundary - pos) <= n)%nat ->
    snd (spiral_loop self n text start boundary pos) = Ok r ->
    (r = -1
     /\ forall p, pos <= p < start - boundary ->
                  no_ending_at self text (start - p)
                  /\ no_ending_at self text (start + p))
    \/ (exists p c,
          pos <= p < start - boundary
          /\ getitem text r = Ok c
          /\ char_in (sentence_endings self) c = true
          /\ (r = start - p
              \/ (r = start + p /\ no_ending_at self text (start - p)))
          /\ forall q, pos <= q < p ->
                       no_ending_at self text (start - q)
                       /\ no_ending_at self text (start + q)).
Proof.
  induction n as [|n IH]; intros pos r Hn Hr; cbn [spiral_loop] in Hr.
  - injection Hr as <-. left. split; [reflexivity|]. intros p Hp. lia.
  - destruct (start - pos >? boundary) eqn:Hg.
    2:{ injection Hr as <-. left. split; [reflexivity|].
        rewrite Z.gtb_ltb in Hg. apply Z.ltb_ge in Hg. intros p Hp. lia. }
    apply Z.gtb_lt in Hg.
    destruct (getitem text (start - pos)) as [c|e] eqn:Hc; [|discriminate].
    destruct (char_in (sentence_endings self) c) eqn:Hce.
    { injection Hr as <-. right. exists pos, c.
      split; [lia|]. split; [exact Hc|]. split; [exact Hce|].
      split; [now left|]. intros q Hq. lia. }
    destruct (getitem text (start + pos)) as [d|e] eqn:Hd; [|discriminate].
    destruct (char_in (sentence_endings self) d) eqn:Hde.
    { injection Hr as <-. right. exists pos, d.
      split; [lia|]. split; [exact Hd|]. split; [exact Hde|].
      split; [|intros q Hq; lia].
      right. split; [reflexivity|]. intros c' Hc'. congruence. }
    assert (Hhere : no_ending_at self text (start - pos)
                    /\ no_ending_at self text (start + pos)).
    { split; intros c' Hc'; congruence. }
    assert (Hsame : forall q, pos <= q < pos + 1 ->
                      no_ending_at self text (start - q)
                      /\ no_ending_at self text (start + q)).
    { intros q Hq. replace q with pos by lia. exact Hhere. }
    specialize (IH (pos + 1) r ltac:(lia)).
    destruct (spiral_loop self n text start boundary (pos + 1)) as [tr r'].
    simpl in Hr, IH. specialize (IH Hr).
    destruct IH as [[Hr1 Hnone] | [p [c' [Hp [Hc' [Hce' [Hside Hbefore]]]]]]].
    + left. split; [exact Hr1|]. intros p Hp.
      destruct (Z.eq_dec p pos) as [->|Hne]; [exact Hhere|].
      apply Hnone. lia.
    + right. exists p, c'.
      split; [lia|]. split; [exact Hc'|]. split; [exact Hce'|].
      split; [exact Hside|]. intros q Hq.
      destruct (Z.eq_dec q pos) as [->|Hne]; [exact Hhere|].
      apply Hbefore. lia.
Qed.

(** The spiral search of [split_page_by_max_tokens] returns the sentence
    ending that is closest to the middle of the text, inside the middle
    third, the one on the left when two are at the same distance; it
    returns -1 exactly when the middle third holds no sentence ending. *)
Theorem spiral_search_closest (text : str) (r : Z)
  (Hr : snd (spiral_search self text) = Ok r) :
  let start := len text / 2 in
  let boundary := len text / 3 in
  (r = -1
   /\ forall i, boundary < i < 2 * start - boundary ->
                no_ending_at self text i)
  \/ (boundary < r < 2 * start - boundary
      /\ (exists c, getitem text r = Ok c
                    /\ char_in (sentence_endings self) c = true)
      /\ (forall i, Z.abs (i - start) < Z.abs (r - start) ->
                    no_ending_at self text i)
      /\ (start < r -> no_ending_at self text (2 * start - r))).
Proof.
  intros start boundary. unfold spiral_search in Hr.
  fold start boundary in Hr.
  apply spiral_loop_first in Hr; [|lia].
  destruct Hr as [[Hr1 Hnone] | [p [c [Hp [Hc [Hce [Hside Hbefore]]]]]]].
  - left. split; [exact Hr1|]. intros i Hi.
    destruct (Z_le_gt_dec i start) as [Hl|Hg].
    + replace i with (start - (start - i)) by lia.
      apply (Hnone (start - i)). lia.
    + replace i with (start + (i - start)) by lia.
      apply (Hnone (i - start)). lia.
  - right. split; [destruct Hside as [->|[-> _]]; lia|].
    split; [eauto|]. split.
    + intros i Hi.
      assert (Hrp : Z.abs (r - start) = p)
        by (destruct Hside as [->|[-> _]]; lia).
      destruct (Z_le_gt_dec i start) as [Hl|Hg].
      * replace i with (start - (start - i)) by lia.
        apply (Hbefore (start - i)). lia.
      * replace i with (start + (i - start)) by lia.
        apply (Hbefore (i - start)). lia.
    + intros Hright. destruct Hside as [->|[-> Hleft]]; [lia|].
      replace (2 * start - (start + p)) with (start - p) by lia.
      exact Hleft.
Qed.

(** When every text of at most two characters is within the budget,
    [split_page_by_max_tokens] returns, at a recursion depth of at most
    the length of the text plus one, and yields at least one fragment. *)
Theorem split_page_by_max_tokens_terminates (page_num : PageNum)
  (text : str) (fuel : nat)
  (Hsmall : forall t, len t <= 2 ->
              Z.of_nat (count_tokens t) <= max_tokens_per_section self)
  (Hfuel : (length text < fuel)%nat) :
  ending (split_page_by_max_tokens count_tokens self fuel page_num text)
  = Returned
  /\ yielded (split_page_by_max_tokens count_tokens self fuel page_num text)
     <> [].
Proof.
  split; [apply split_page_by_max_tokens_returns; assumption|].
  revert text Hfuel. induction fuel as [|fuel IH]; intros text Hf; [lia|].
  rewrite split_page_by_max_tokens_eq.
  destruct (Z.of_nat (count_tokens text) <=? max_tokens_per_section self)
    eqn:Hfit; [discriminate|].
  apply Z.leb_gt in Hfit.
  assert (H3 : 3 <= len text).
  { destruct (Z_le_gt_dec (len text) 2) as [H2|H2]; [|lia].
    specialize (Hsmall text H2). lia. }
  destruct (snd (spiral_search self text)) as [sp|e] eqn:Hs.
  - destruct (halves_shorter count_tokens self text sp H3 Hs) as [H1 H2].
    unfold len in H1, H2.
    pose proof (split_page_by_max_tokens_returns count_tokens self page_num
                  Hsmall fuel (fst (halves text sp)) ltac:(lia)) as Hr1.
    destruct (split_page_by_max_tokens count_tokens self fuel page_num
                (fst (halves text sp))) as [out1 o1] eqn:E1.
    simpl in Hr1. subst o1. simpl.
    specialize (IH (fst (halves text sp)) ltac:(lia)).
    rewrite E1 in IH. simpl in IH.
    destruct out1; [congruence | discriminate].
  - exfalso.
    exact (spiral_search_no_raise self text e Hs).
Qed.

End TokenSplitterPieces.

(** With the limits of [__init__] and one token per character, no text of
    two characters is over the budget of 500, and a text of 1200
    characters is split at a depth of at most 1201. *)
Lemma split_page_by_max_tokens_terminates_witness :
  ending (SentenceTextSplitter.split_page_by_max_tokens
            Examples.one_token_per_char (SentenceTextSplitter.init 500)
            1201 (PInt 0) Examples.two_sentences)
  = Returned
  /\ yielded (SentenceTextSplitter.split_page_by_max_tokens
                Examples.one_token_per_char (SentenceTextSplitter.init 500)
                1201 (PInt 0) Examples.two_sentences)
     <> [].
Proof.
  apply (split_page_by_max_tokens_terminates Examples.one_token_per_char
           (SentenceTextSplitter.init 500) (PInt 0) Examples.two_sentences
           1201).
  - intros t Ht. unfold Examples.one_token_per_char. simpl.
    unfold len in Ht. lia.
  - vm_compute. lia.
Defined.

(** In the text "ab. cd. efg hij" the search returns 6, the sentence
    ending next to the middle. *)
Lemma spiral_search_closest_witness :
  let self := SentenceTextSplitter.init 3 in
  let text := lit "ab. cd. efg hij" in
  (6 = -1
   /\ forall i, len text / 3 < i < 2 * (len text / 2) - len text / 3 ->
                no_ending_at self text i)
  \/ (len text / 3 < 6 < 2 * (len text / 2) - len text / 3
      /\ (exists c, getitem text 6 = Ok c
                    /\ char_in (SentenceTextSplitter.sentence_endings self) c
                       = true)
      /\ (forall i, Z.abs (i - len text / 2) < Z.abs (6 - len text / 2) ->
                    no_ending_at self text i)
      /\ (len text / 2 < 6 ->
          no_ending_at self text (2 * (len text / 2) - 6))).
Proof.
  apply (spiral_search_closest (SentenceTextSplitter.init 3)
           (lit "ab. cd. efg hij") 6).
  vm_compute. reflexivity.
Defined.

(** The text "ab. cd. efg hij" with a budget of three characters: the run
    returns and position 9 lies in a fragment. *)
Lemma split_page_by_max_tokens_covers_witness :
  exists f o,
    In f (yielded (SentenceTextSplitter.split_page_by_max_tokens
                     Examples.one_token_per_char
                     (SentenceTextSplitter.init 3) 10 (PInt 0)
                     (lit "ab. cd. efg hij")))
    /\ occurs_at (lit "ab. cd. efg hij") o (sp_text f)
    /\ (o <= 9 < o + length (sp_text f))%nat.
Proof.
  apply (split_page_by_max_tokens_covers Examples.one_token_per_char
           (SentenceTextSplitter.init 3) 10 (PInt 0)
           (lit "ab. cd. efg hij")).
  - vm_compute. reflexivity.
  - simpl. lia.
Defined.

Section TokenSplitterNonEmpty.

Import SentenceTextSplitter.

Variable count_tokens : str -> nat.
Variable self : t.

Lemma single_char_never_returns (page_num : PageNum) (c : char) :
  max_tokens_per_section self < Z.of_nat (count_tokens [c]) ->
  forall fuel,
    ending (split_page_by_max_tokens count_tokens self fuel page_num [c])
    <> Returned.
Proof.
  intros Hover. induction fuel as [|fuel IH]; [discriminate|].
  rewrite split_page_by_max_tokens_eq.
  destruct (Z.of_nat (count_tokens [c]) <=? max_tokens_per_section self)
    eqn:Hfit; [apply Z.leb_le in Hfit; lia|].
  change (snd (spiral_search self [c])) with (@Ok Z (-1)). cbv iota.
  change (halves [c] (-1)) with (@nil char, [c]). simpl fst; simpl snd.
  intros H. apply gseq_returned_inv in H. destruct H as [_ [H _]].
  exact (IH H).
Qed.

(** From three characters on, neither half is empty. *)
Lemma halves_nonempty (text : str) (split_position : Z) :
  3 <= len text ->
  snd (spiral_search self text) = Ok split_position ->
  1 <= len (fst (halves text split_position))
  /\ 1 <= len (snd (halves text split_position)).
Proof.
  intros H3 Hs. unfold spiral_search in Hs.
  apply spiral_loop_result in Hs; [|lia].
  unfold halves. destruct (split_position >? 0) eqn:Hp; simpl fst; simpl snd;
    rewrite !len_slice; unfold clamp, DEFAULT_OVERLAP_PERCENT.
  - apply Z.gtb_lt in Hp.
    destruct (split_position + 1 <? 0) eqn:Hn;
      [apply Z.ltb_lt in Hn; lia|].
    destruct Hs as [Hs|Hs]; [lia|].
    Z.to_euclidean_division_equations. lia.
  - destruct (len text / 2 + len text * 10 / 100 <? 0) eqn:Hn1;
      [apply Z.ltb_lt in Hn1; Z.to_euclidean_division_equations; lia|].
    destruct (len text / 2 - len text * 10 / 100 <? 0) eqn:Hn2;
      [apply Z.ltb_lt in Hn2; Z.to_euclidean_division_equations; lia|].
    Z.to_euclidean_division_equations. lia.
Qed.

(** When [split_page_by_max_tokens] returns on a text that is not empty,
    none of the fragments it has yielded is empty. *)
Theorem split_page_by_max_tokens_no_empty_fragment (fuel : nat)
  (page_num : PageNum) (text : str)
  (Hne : text <> [])
  (Hret : ending (split_page_by_max_tokens count_tokens self fuel
                    page_num text) = Returned) :
  Forall (fun f => sp_text f <> [])
         (yielded (split_page_by_max_tokens count_tokens self fuel
                     page_num text)).
Proof.
  revert text Hne Hret.
  induction fuel as [|fuel IH]; intros text Hne Hret; [discriminate|].
  rewrite split_page_by_max_tokens_eq in *.
  destruct (Z.of_nat (count_tokens text) <=? max_tokens_per_section self)
    eqn:Hfit.
  { apply Forall_cons; [exact Hne | constructor]. }
  apply Z.leb_gt in Hfit.
  destruct (snd (spiral_search self text)) as [sp|e] eqn:Hs;
    [|discriminate].
  apply gseq_returned_inv in Hret. destruct Hret as [Hr1 [Hr2 Hy]].
  rewrite Hy.
  assert (Hhalves : fst (halves text sp) <> [] /\ snd (halves text sp) <> []).
  { destruct text as [|c [|d [|x rest]]].
    - congruence.
    - (* one character *)
      exfalso. change (snd (spiral_search self [c])) with (@Ok Z (-1)) in Hs.
      injection Hs as <-.
      change (snd (halves [c] (-1))) with [c] in Hr2.
      exact (single_char_never_returns page_num c Hfit fuel Hr2).
    - (* two characters *)
      unfold spiral_search in Hs. simpl in Hs.
      destruct (char_in (sentence_endings self) d) eqn:Hd.
      + exfalso. simpl in Hs. injection Hs as <-.
        match type of Hr1 with
        | context [fst (halves ?t ?s)] =>
            change (fst (halves t s)) with [c; d] in Hr1
        end.
        pose proof (split_page_by_max_tokens_two_chars_diverges
                      count_tokens self page_num c d Hd Hfit fuel) as Hdiv.
        congruence.
      + simpl in Hs. injection Hs as <-.
        split; discriminate.
    - assert (H3 : 3 <= len (c :: d :: x :: rest))
        by (unfold len; simpl length; lia).
      destruct (halves_nonempty _ sp H3 Hs) as [H1 H2].
      split; intros E; rewrite E in *; unfold len in *; simpl in *; lia. }
  destruct Hhalves as [Hn1 Hn2].
  apply Forall_app. split; apply IH; assumption.
Qed.

End TokenSplitterNonEmpty.

(** The run on "ab. cd. efg hij" with a budget of three characters
    returns, and none of its fragments is empty. *)
Lemma split_page_by_max_tokens_no_empty_fragment_witness :
  Forall (fun f => sp_text f <> [])
         (yielded (SentenceTextSplitter.split_page_by_max_tokens
                     Examples.one_token_per_char
                     (SentenceTextSplitter.init 3) 10 (PInt 0)
                     (lit "ab. cd. efg hij"))).
Proof.
  apply (split_page_by_max_tokens_no_empty_fragment
           Examples.one_token_per_char (SentenceTextSplitter.init 3) 10
           (PInt 0) (lit "ab. cd. efg hij")).
  - discriminate.
  - vm_compute. reflexivity.
Defined.

(** ** The sections of the sentence splitter *)

Lemma rfind_ge (s sub : str) : -1 <= rfind s sub.
Proof.
  unfold rfind.
  destruct (rfind_from_spec sub s 0 _ eq_refl) as [E | [H _]]; lia.
Qed.

Lemma starts_with_firstn (sub l : str) (m : nat) :
  starts_with sub (firstn m l) = true -> starts_with sub l = true.
Proof.
  revert l m. induction sub as [|x sub IH]; intros l m H; [reflexivity|].
  destruct l as [|y l]; [rewrite firstn_nil in H; discriminate|].
  destruct m as [|m]; [discriminate|].
  simpl in *. apply andb_true_iff in H. destruct H as [H1 H2].
  rewrite H1. simpl. exact (IH l m H2).
Qed.

(** A string that does not occur in a text does not occur in its
    slices. *)
Lemma rfind_slice_none (s sub : str) (a e : Z) :
  0 <= a -> 0 <= e -> rfind s sub = -1 ->
  rfind (slice s (Some a) (Some e)) sub = -1.
Proof.
  intros Ha He Hnone.
  pose proof (rfind_ge (slice s (Some a) (Some e)) sub) as Hge.
  destruct (Z.eq_dec (rfind (slice s (Some a) (Some e)) sub) (-1))
    as [E | Hne]; [exact E|].
  exfalso. unfold rfind in Hne, Hge.
  destruct (rfind_from_spec sub (slice s (Some a) (Some e)) 0 _ eq_refl)
    as [E | [_ [Hle Hs]]]; [contradiction|].
  rewrite Z.sub_0_r in *.
  set (r := rfind_from sub (slice s (Some a) (Some e)) 0) in *.
  rewrite slice_nonneg in Hs, Hle by lia.
  set (A := Z.to_nat (Z.min a (len s))) in *.
  rewrite skipn_firstn_comm in Hs. apply starts_with_firstn in Hs.
  rewrite skipn_skipn in Hs.
  unfold len in Hle. rewrite length_firstn, length_skipn in Hle.
  assert (HA : (A <= length s)%nat) by (unfold A, len; lia).
  pose proof (rfind_last s sub (Z.to_nat r + A) ltac:(lia) Hs). lia.
Qed.

Section Sections.

Import SentenceTextSplitter.

Variable count_tokens : str -> nat.
Variable self : t.

Local Abbreviation msl := (max_section_length self).
Local Abbreviation lim := (sentence_search_limit self).
Local Abbreviation ov := (section_overlap self).


(** The page number [find_page] returns is the number of a page of the
    list. *)
Lemma find_page_in (pages : list (Page str)) (off : Z) (pn : PageNum) :
  find_page pages off = Ok pn ->
  exists p, In p pages /\ page_num p = pn.
Proof.
  induction pages as [|p0 rest IH]; intros H; [discriminate|].
  destruct rest as [|p1 rest'].
  - injection H as <-. exists p0. split; [now left | reflexivity].
  - change (find_page (p0 :: p1 :: rest') off)
      with (ge <- offset_ge off (offset p0) ;;
            hit <- (if ge then offset_lt off (offset p1) else Ok false) ;;
            if hit then Ok (page_num p0) else find_page (p1 :: rest') off)
      in H.
    apply bind_ok in H. destruct H as [ge [_ H]].
    apply bind_ok in H. destruct H as [hit [_ H]].
    destruct hit.
    + injection H as <-. exists p0. split; [now left | reflexivity].
    + destruct (IH H) as [p [Hin Hp]]. exists p. split; [now right | exact Hp].
Qed.

Hypothesis Hov0 : 0 <= ov.
Hypothesis Hov : ov <= msl.

(** The state of the loop after an iteration: the next start is not
    negative and the end is inside the text. *)
Lemma next_start_nonneg (pages : list (Page str)) (all_text : str)
  (start a e start2 : Z) :
  0 <= start -> start + ov < len all_text ->
  window self all_text start = Ok (a, e) ->
  next_start self pages (slice all_text (Some a) (Some e)) a e = Ok start2 ->
  0 <= start2 /\ e <= len all_text.
Proof.
  intros Hs Hg Hw Hn.
  apply window_spec in Hw. destruct Hw as [He Ha].
  apply window_end_spec in He. apply window_start_spec in Ha.
  apply next_start_spec in Hn.
  destruct Hn as [[_ ->] | [Hfig ->]]; [lia|].
  unfold unclosed_figure in Hfig. apply andb_true_iff in Hfig.
  destruct Hfig as [_ Hfig]. apply Z.gtb_lt in Hfig.
  pose proof (rfind_ge (slice all_text (Some a) (Some e)) (lit "</figure")).
  lia.
Qed.

Lemma window_bounds (all_text : str) (start a e : Z) :
  0 <= start -> start + ov < len all_text ->
  window self all_text start = Ok (a, e) ->
  0 <= a <= start + 1 /\ 0 <= e <= len all_text
  /\ e - a <= msl + Z.max (2 * lim) (Z.max 0 lim + 1).
Proof.
  intros Hs Hg Hw.
  apply window_spec in Hw. destruct Hw as [He Ha].
  apply window_end_spec in He. apply window_start_spec in Ha. lia.
Qed.

(** What holds of the fragments of every window holds of all the
    fragments the loop yields: nothing is yielded after the loop. *)
Lemma sections_loop_Forall (P : SplitPage -> Prop) (depth : nat)
  (pages : list (Page str)) (all_text : str) :
  (forall start a e pn,
      0 <= start -> start + ov < len all_text ->
      window self all_text start = Ok (a, e) ->
      find_page pages a = Ok pn ->
      Forall P (yielded (split_page_by_max_tokens count_tokens self depth pn
                           (slice all_text (Some a) (Some e))))) ->
  forall n start end_,
    0 <= start -> end_ <= len all_text ->
    Forall P (yielded (sections_loop count_tokens self n depth pages
                         all_text start end_)).
Proof.
  intros Hwin. induction n as [|n IH]; intros start end_ Hs He;
    [constructor|].
  cbn [sections_loop].
  destruct (start + ov <? len all_text) eqn:Hg.
  - apply Z.ltb_lt in Hg.
    destruct (window self all_text start) as [[a e]|x] eqn:Hw;
      [|constructor].
    destruct (find_page pages a) as [pn|x] eqn:Hpn; [|constructor].
    apply yielded_gseq; [exact (Hwin start a e pn Hs Hg Hw Hpn)|].
    destruct (next_start self pages (slice all_text (Some a) (Some e)) a e)
      as [start2|x] eqn:Hn; [|constructor].
    destruct (next_start_nonneg pages all_text start a e start2 Hs Hg Hw Hn)
      as [H1 H2].
    apply IH; assumption.
  - apply Z.ltb_ge in Hg.
    replace (start + ov <? end_) with false
      by (symmetry; apply Z.ltb_ge; lia).
    constructor.
Qed.

(** Every fragment [split_pages] yields is a piece of the text that was
    cut for it: the whole text, with the page [find_page] gives to offset
    0, when the text is at most [max_section_length] long; else a window
    of the loop, with the page [find_page] gives to the start of that
    window. *)
Theorem split_pages_fragments_from_windows (fuel : nat)
  (pages : list (Page str)) :
  let all_text := join_empty (map text pages) in
  Forall (fun f =>
            if len all_text <=? msl then
              find_page pages 0 = Ok (sp_page_num f)
              /\ exists o, occurs_at all_text o (sp_text f)
            else
              exists start a e,
                0 <= start /\ start + ov < len all_text
                /\ window self all_text start = Ok (a, e)
                /\ find_page pages a = Ok (sp_page_num f)
                /\ exists o, occurs_at (slice all_text (Some a) (Some e)) o
                               (sp_text f))
         (yielded (split_pages count_tokens self fuel pages)).
Proof.
  intros all_text. unfold split_pages. fold all_text.
  destruct (len (strip all_text) =? 0); [constructor|].
  destruct (len all_text <=? msl).
  - destruct (find_page pages 0) as [pn|x] eqn:Hpn; [|constructor].
    eapply Forall_impl; [|apply split_pieces]. cbv beta.
    intros f [Hf Ho]. rewrite Hf. split; [reflexivity | exact Ho].
  - apply sections_loop_Forall; [|lia|lia].
    intros start a e pn Hs Hg Hw Hpn.
    eapply Forall_impl; [|apply split_pieces]. cbv beta.
    intros f [Hf Ho]. exists start, a, e. rewrite Hf. auto.
Qed.

(** No fragment [split_pages] yields is longer than
    [max_section_length + 2 * sentence_search_limit] characters, when the
    search limit is at least 1. *)
Theorem split_pages_fragment_length (fuel : nat) (pages : list (Page str))
  (Hlim : 1 <= lim) :
  Forall (fun f => len (sp_text f) <= msl + 2 * lim)
         (yielded (split_pages count_tokens self fuel pages)).
Proof.
  unfold split_pages.
  set (all_text := join_empty (map text pages)).
  destruct (len (strip all_text) =? 0); [constructor|].
  destruct (len all_text <=? msl) eqn:Hshort.
  - apply Z.leb_le in Hshort.
    destruct (find_page pages 0) as [pn|x]; [|constructor].
    eapply Forall_impl; [|apply split_pieces]. cbv beta.
    intros f [_ [o Ho]]. apply occurs_at_length in Ho.
    unfold len in *. lia.
  - apply sections_loop_Forall; [|lia|lia].
    intros start a e pn Hs Hg Hw _.
    destruct (window_bounds all_text start a e Hs Hg Hw) as [Ha [He Hlen]].
    eapply Forall_impl; [|apply split_pieces]. cbv beta.
    intros f [_ [o Ho]]. apply occurs_at_length in Ho.
    assert (Hsec : len (slice all_text (Some a) (Some e))
                   <= Z.max 0 (e - a)).
    { rewrite len_slice. unfold clamp.
      replace (e <? 0) with false by (symmetry; apply Z.ltb_ge; lia).
      replace (a <? 0) with false by (symmetry; apply Z.ltb_ge; lia).
      lia. }
    unfold len in *. lia.
Qed.


(** When the first of two or more pages has no offset and the text is not
    blank, [split_pages] raises [TypeError] before it yields anything. *)
Theorem split_pages_missing_offset (fuel : nat) (p q : Page str)
  (rest : list (Page str))
  (Hnone : offset p = None)
  (Hne : strip (join_empty (map text (p :: q :: rest))) <> []) :
  split_pages count_tokens self (S fuel) (p :: q :: rest)
  = ([], Raised TypeError).
Proof.
  assert (Hfp : forall off, find_page (p :: q :: rest) off = Raise TypeError).
  { intros off.
    change (find_page (p :: q :: rest) off)
      with (ge <- offset_ge off (offset p) ;;
            hit <- (if ge then offset_lt off (offset q) else Ok false) ;;
            if hit then Ok (page_num p) else find_page (q :: rest) off).
    rewrite Hnone. reflexivity. }
  unfold split_pages.
  set (all_text := join_empty (map text (p :: q :: rest))) in *.
  destruct (len (strip all_text) =? 0) eqn:Hblank.
  { apply Z.eqb_eq, len_zero_nil in Hblank. contradiction. }
  destruct (len all_text <=? msl) eqn:Hshort.
  - rewrite Hfp. reflexivity.
  - apply Z.leb_gt in Hshort. cbn [sections_loop].
    replace (0 + ov <? len all_text) with true
      by (symmetry; apply Z.ltb_lt; lia).
    destruct (window_total self all_text 0 Hov0 ltac:(lia) ltac:(lia)
                ltac:(lia)) as [a [e Hw]].
    rewrite Hw, Hfp. reflexivity.
Qed.

(** [split_pages] invents no page number: every fragment carries the
    number of one of the pages. *)
Theorem split_pages_page_numbers (fuel : nat) (pages : list (Page str)) :
  Forall (fun f => exists p, In p pages /\ page_num p = sp_page_num f)
         (yielded (split_pages count_tokens self fuel pages)).
Proof.
  unfold split_pages.
  set (all_text := join_empty (map text pages)).
  destruct (len (strip all_text) =? 0); [constructor|].
  destruct (len all_text <=? msl).
  - destruct (find_page pages 0) as [pn|x] eqn:Hpn; [|constructor].
    eapply Forall_impl; [|apply split_pieces]. cbv beta.
    intros f [Hf _]. rewrite Hf. exact (find_page_in pages 0 pn Hpn).
  - apply sections_loop_Forall; [|lia|lia].
    intros start a e pn _ _ _ Hpn.
    eapply Forall_impl; [|apply split_pieces]. cbv beta.
    intros f [Hf _]. rewrite Hf. exact (find_page_in pages a pn Hpn).
Qed.

End Sections.

Section SectionsTermination.

Import SentenceTextSplitter.

Variable count_tokens : str -> nat.
Variable self : t.

Local Abbreviation msl := (max_section_length self).
Local Abbreviation lim := (sentence_search_limit self).
Local Abbreviation ov := (section_overlap self).

Lemma sections_loop_returns (pages : list (Page str)) (all_text : str)
  (depth : nat) :
  0 <= ov -> ov < msl -> 0 <= lim ->
  pages <> [] -> offsets_present pages = true ->
  rfind all_text (lit "<figure") = -1 ->
  (forall t, len t <= 2 ->
             Z.of_nat (count_tokens t) <= max_tokens_per_section self) ->
  (length all_text < depth)%nat ->
  forall n start end_,
    0 <= start -> end_ <= len all_text ->
    (Z.to_nat (len all_text - start) < n)%nat ->
    ending (sections_loop count_tokens self n depth pages all_text
              start end_) = Returned.
Proof.
  intros Hov0 Hlt Hlim Hpages Hpres Hnofig Hsmall Hdepth.
  induction n as [|n IH]; intros start end_ Hs He Hn; [lia|].
  cbn [sections_loop].
  destruct (start + ov <? len all_text) eqn:Hg.
  - apply Z.ltb_lt in Hg.
    destruct (window_total self all_text start Hov0 ltac:(lia) Hs Hg)
      as [a [e Hw]].
    rewrite Hw.
    destruct (find_page_total pages a Hpages Hpres) as [pn ->].
    destruct (window_bounds self Hov0 ltac:(lia) all_text start a e Hs Hg Hw)
      as [Ha [He' _]].
    pose proof Hw as Hw'. apply window_spec in Hw'.
    destruct Hw' as [Hend _]. apply window_end_spec in Hend.
    rewrite ending_gseq_returned.
    + unfold next_start, unclosed_figure.
      rewrite (rfind_slice_none all_text (lit "<figure") a e) by lia.
      replace (-1 >? 2 * lim) with false
        by (symmetry; rewrite Z.gtb_ltb; apply Z.ltb_ge; lia).
      cbn [andb]. apply IH; lia.
    + apply split_page_by_max_tokens_returns; [exact Hsmall|].
      pose proof (len_slice all_text (Some a) (Some e)) as Hl.
      unfold clamp in Hl.
      replace (e <? 0) with false in Hl by (symmetry; apply Z.ltb_ge; lia).
      replace (a <? 0) with false in Hl by (symmetry; apply Z.ltb_ge; lia).
      unfold len in *. lia.
  - apply Z.ltb_ge in Hg.
    replace (start + ov <? end_) with false
      by (symmetry; apply Z.ltb_ge; lia).
    reflexivity.
Qed.

(** On a text in which ["<figure"] does not occur, [split_pages] returns:
    with offsets on every page, an overlap between 0 and less than
    [max_section_length], a search limit that is not negative and every
    text of at most two characters within the token budget, a number of
    iterations and a recursion depth of the length of the text plus two
    are enough. *)
Theorem split_pages_terminates (fuel : nat) (pages : list (Page str))
  (Hov0 : 0 <= ov) (Hlt : ov < msl) (Hlim : 0 <= lim)
  (Hpres : offsets_present pages = true)
  (Hnofig : rfind (join_empty (map text pages)) (lit "<figure") = -1)
  (Hsmall : forall t, len t <= 2 ->
              Z.of_nat (count_tokens t) <= max_tokens_per_section self)
  (Hfuel : (length (join_empty (map text pages)) + 1 < fuel)%nat) :
  ending (split_pages count_tokens self fuel pages) = Returned.
Proof.
  unfold split_pages.
  set (all_text := join_empty (map text pages)) in *.
  destruct (len (strip all_text) =? 0) eqn:Hblank; [reflexivity|].
  assert (Hpages : pages <> []).
  { intros E. subst pages. discriminate. }
  destruct (len all_text <=? msl).
  - destruct (find_page_total pages 0 Hpages Hpres) as [pn ->].
    apply split_page_by_max_tokens_returns; [exact Hsmall | lia].
  - apply (sections_loop_returns pages all_text fuel); try assumption;
      try lia.
    unfold len. lia.
Qed.

End SectionsTermination.

(** ** Offsets before the first page *)

Section FindPageEdges.

Import SentenceTextSplitter.

Lemma find_page_below (pages : list (Page str)) (off : Z) :
  forall lo p,
    offsets_from lo pages = true -> off < lo ->
    nth_error pages (length pages - 1) = Some p ->
    find_page pages off = Ok (page_num p).
Proof.
  induction pages as [|p0 rest IH]; intros lo p Hord Hlt Hp; [discriminate|].
  simpl in Hord. destruct (offset p0) as [o0|] eqn:Ho0; [|discriminate].
  apply andb_true_iff in Hord. destruct Hord as [Hlo Hrest].
  apply Z.leb_le in Hlo.
  destruct rest as [|p1 rest'].
  { simpl in Hp. injection Hp as <-. reflexivity. }
  replace (length (p0 :: p1 :: rest') - 1)%nat
    with (S (length (p1 :: rest') - 1)) in Hp by (simpl; lia).
  change (nth_error (p0 :: p1 :: rest') (S (length (p1 :: rest') - 1)))
    with (nth_error (p1 :: rest') (length (p1 :: rest') - 1)) in Hp.
  change (find_page (p0 :: p1 :: rest') off)
    with (ge <- offset_ge off (offset p0) ;;
          hit <- (if ge then offset_lt off (offset p1) else Ok false) ;;
          if hit then Ok (page_num p0) else find_page (p1 :: rest') off).
  rewrite Ho0. cbn [offset_ge bind].
  replace (o0 <=? off) with false by (symmetry; apply Z.leb_gt; lia).
  cbn [bind]. exact (IH o0 p Hrest ltac:(lia) Hp).
Qed.

(** On ordered pages an offset below the start of the first page is given
    to the last page. *)
Theorem find_page_before_first_page (pages : list (Page str)) (off : Z)
  (first last_page : Page str) (o : Z)
  (Hord : offsets_ordered pages = true)
  (Hfirst : nth_error pages 0 = Some first)
  (Ho : offset first = Some o)
  (Hlt : off < o)
  (Hlast : nth_error pages (length pages - 1) = Some last_page) :
  find_page pages off = Ok (page_num last_page).
Proof.
  destruct pages as [|p0 rest]; [discriminate|].
  simpl in Hfirst. injection Hfirst as <-.
  apply (find_page_below (p0 :: rest) off o last_page); try assumption.
  simpl in *. rewrite Ho in *. rewrite Z.leb_refl. exact Hord.
Qed.

End FindPageEdges.

(** The text of two sentences, one token per character, the limits of
    [__init__]. *)
Lemma split_pages_fragments_from_windows_witness :
  let self := SentenceTextSplitter.init 500 in
  let pages := MoreExamples.two_sentences_pages in
  let all_text := join_empty (map text pages) in
  Forall (fun f =>
            if len all_text <=? SentenceTextSplitter.max_section_length self
            then
              SentenceTextSplitter.find_page pages 0 = Ok (sp_page_num f)
              /\ exists o, occurs_at all_text o (sp_text f)
            else
              exists start a e,
                0 <= start
                /\ start + SentenceTextSplitter.section_overlap self
                   < len all_text
                /\ SentenceTextSplitter.window self all_text start
                   = Ok (a, e)
                /\ SentenceTextSplitter.find_page pages a
                   = Ok (sp_page_num f)
                /\ exists o, occurs_at (slice all_text (Some a) (Some e)) o
                               (sp_text f))
         (yielded (SentenceTextSplitter.split_pages
                     Examples.one_token_per_char self 1300 pages)).
Proof.
  exact (split_pages_fragments_from_windows Examples.one_token_per_char
           (SentenceTextSplitter.init 500)
           ltac:(vm_compute; discriminate)
           1300 MoreExamples.two_sentences_pages).
Defined.

Lemma split_pages_fragment_length_witness :
  Forall (fun f => len (sp_text f) <= 1000 + 2 * 100)
         (yielded (SentenceTextSplitter.split_pages
                     Examples.one_token_per_char
                     (SentenceTextSplitter.init 500) 1300
                     MoreExamples.two_sentences_pages)).
Proof.
  exact (split_pages_fragment_length Examples.one_token_per_char
           (SentenceTextSplitter.init 500)
           ltac:(vm_compute; discriminate) ltac:(vm_compute; discriminate)
           1300 MoreExamples.two_sentences_pages
           ltac:(vm_compute; discriminate)).
Defined.


(** Two pages without offsets: [TypeError], nothing yielded. *)
Lemma split_pages_missing_offset_witness :
  SentenceTextSplitter.split_pages Examples.one_token_per_char
    (SentenceTextSplitter.init 500) 1 MoreExamples.pages_without_offsets
  = ([], Raised TypeError).
Proof.
  exact (split_pages_missing_offset Examples.one_token_per_char
           (SentenceTextSplitter.init 500)
           ltac:(vm_compute; discriminate) ltac:(vm_compute; discriminate)
           0 (mkPage (PInt 0) None (lit "Hello world. "))
           (mkPage (PInt 1) None (lit "Bye now.")) [] eq_refl
           ltac:(discriminate)).
Defined.

Lemma split_pages_page_numbers_witness :
  Forall (fun f => exists p, In p MoreExamples.two_sentences_pages
                             /\ page_num p = sp_page_num f)
         (yielded (SentenceTextSplitter.split_pages
                     Examples.one_token_per_char
                     (SentenceTextSplitter.init 500) 1300
                     MoreExamples.two_sentences_pages)).
Proof.
  exact (split_pages_page_numbers Examples.one_token_per_char
           (SentenceTextSplitter.init 500)
           ltac:(vm_compute; discriminate)
           1300 MoreExamples.two_sentences_pages).
Defined.

(** The text of two sentences has no figure, and no text of two characters
    has more than 500 tokens: the run returns. *)
Lemma split_pages_terminates_witness :
  ending (SentenceTextSplitter.split_pages Examples.one_token_per_char
            (SentenceTextSplitter.init 500) 1202
            MoreExamples.two_sentences_pages)
  = Returned.
Proof.
  apply (split_pages_terminates Examples.one_token_per_char
           (SentenceTextSplitter.init 500) 1202
           MoreExamples.two_sentences_pages).
  - vm_compute. discriminate.
  - vm_compute. reflexivity.
  - vm_compute. discriminate.
  - reflexivity.
  - vm_compute. reflexivity.
  - intros t Ht. unfold Examples.one_token_per_char. simpl.
    unfold len in Ht. lia.
  - vm_compute. lia.
Defined.

(** Pages that start at offset 5: offset 2 goes to the last page. *)
Lemma find_page_before_first_page_witness :
  SentenceTextSplitter.find_page MoreExamples.late_pages 2 = Ok (PInt 4).
Proof.
  apply (find_page_before_first_page MoreExamples.late_pages 2
           (mkPage (PInt 3) (Some 5) (lit "abc"))
           (mkPage (PInt 4) (Some 8) (lit "de")) 5).
  - reflexivity.
  - reflexivity.
  - reflexivity.
  - lia.
  - reflexivity.
Defined.

(** ** Nothing of the text is left out *)

(** A piece of a slice of the text is a piece of the text. *)
Lemma occurs_at_slice (text : str) (a e : Z) (o : nat) (piece : str) :
  0 <= a <= len text -> 0 <= e ->
  occurs_at (slice text (Some a) (Some e)) o piece ->
  occurs_at text (Z.to_nat a + o) piece.
Proof.
  intros Ha He H. rewrite slice_nonneg in H by lia.
  apply occurs_at_firstn in H.
  rewrite Z.min_l in H by lia.
  apply occurs_at_skipn; [unfold len in Ha; lia | exact H].
Qed.

Section SectionsCover.

Import SentenceTextSplitter.

Variable count_tokens : str -> nat.
Variable self : t.

Local Abbreviation msl := (max_section_length self).
Local Abbreviation lim := (sentence_search_limit self).
Local Abbreviation ov := (section_overlap self).

Lemma covered_app_l (text : str) (l1 l2 : list SplitPage) (i : nat) :
  covered text l1 i -> covered text (l1 ++ l2) i.
Proof.
  intros [f [o [Hin H]]]. exists f, o. split; [|exact H].
  apply in_or_app. now left.
Qed.

Lemma covered_app_r (text : str) (l1 l2 : list SplitPage) (i : nat) :
  covered text l2 i -> covered text (l1 ++ l2) i.
Proof.
  intros [f [o [Hin H]]]. exists f, o. split; [|exact H].
  apply in_or_app. now right.
Qed.

(** The fragments of a window cover the positions of the window. *)
Lemma window_covered (depth : nat) (pn : PageNum) (all_text : str)
  (a e : Z) (i : nat) :
  0 <= a -> e <= len all_text -> a <= Z.of_nat i < e ->
  ending (split_page_by_max_tokens count_tokens self depth pn
            (slice all_text (Some a) (Some e))) = Returned ->
  covered all_text
    (yielded (split_page_by_max_tokens count_tokens self depth pn
                (slice all_text (Some a) (Some e)))) i.
Proof.
  intros Ha He Hi Hret.
  assert (Hlen : len (slice all_text (Some a) (Some e)) = e - a).
  { rewrite len_slice. unfold clamp.
    replace (e <? 0) with false by (symmetry; apply Z.ltb_ge; lia).
    replace (a <? 0) with false by (symmetry; apply Z.ltb_ge; lia).
    lia. }
  destruct (split_covers count_tokens self depth pn _ Hret
              (i - Z.to_nat a)%nat) as [f [o [Hin [Ho Hio]]]].
  { unfold len in Hlen. lia. }
  exists f, (Z.to_nat a + o)%nat. split; [exact Hin|]. split; [|lia].
  apply (occurs_at_slice all_text a e); [lia | lia | exact Ho].
Qed.

(** A window entered at 0 starts at 0. *)
Lemma window_start_zero (all_text : str) (end_ a : Z) :
  window_start self all_text 0 end_ = Ok a -> a = 0.
Proof.
  unfold window_start. simpl. intros H.
  apply bind_ok in H. destruct H as [c [_ H]].
  rewrite andb_false_r in H. injection H as <-. reflexivity.
Qed.

Hypothesis Hov1 : 1 <= ov.
Hypothesis Hov : ov <= msl.

(** After the first iteration: the positions before [end_] are those of
    the windows cut so far, and the loop covers the others. *)
Lemma sections_loop_covers (depth : nat) (pages : list (Page str))
  (all_text : str) :
  forall n start end_,
    0 <= start -> start + ov <= end_ -> end_ <= len all_text ->
    ending (sections_loop count_tokens self n depth pages all_text
              start end_) = Returned ->
    forall i, end_ <= Z.of_nat i < len all_text ->
      covered all_text
        (yielded (sections_loop count_tokens self n depth pages all_text
                    start end_)) i.
Proof.
  induction n as [|n IH]; intros start end_ Hs Hse He Hret i Hi;
    [discriminate|].
  cbn [sections_loop] in *.
  destruct (start + ov <? len all_text) eqn:Hg.
  2:{ apply Z.ltb_ge in Hg. lia. }
  apply Z.ltb_lt in Hg.
  destruct (window self all_text start) as [[a e]|x] eqn:Hw;
    [|discriminate].
  destruct (find_page pages a) as [pn|x] eqn:Hpn; [|discriminate].
  apply gseq_returned_inv in Hret. destruct Hret as [Hr1 [Hr2 Hy]].
  rewrite Hy.
  destruct (next_start self pages (slice all_text (Some a) (Some e)) a e)
    as [start2|x] eqn:Hn; [|discriminate].
  destruct (window_bounds self ltac:(lia) Hov all_text start a e Hs Hg Hw)
    as [Ha [He' _]].
  destruct (next_start_nonneg self Hov pages all_text start a e
              start2 Hs Hg Hw Hn) as [Hs2 _].
  assert (Hs2e : start2 + ov <= e).
  { apply next_start_spec in Hn. destruct Hn as [[_ ->]|[_ ->]]; lia. }
  destruct (Z_lt_le_dec (Z.of_nat i) e) as [Hie | Hie].
  - apply covered_app_l.
    apply window_covered; try assumption; lia.
  - apply covered_app_r.
    apply (IH start2 e); try assumption; lia.
Qed.

(** When [split_pages] returns on a text that is not blank, with an
    overlap of at least 1 and at most [max_section_length], every
    position of the concatenated text lies in one of the fragments, as a
    piece of the text: characters are repeated where sections overlap,
    never dropped. *)
Theorem split_pages_covers (fuel : nat) (pages : list (Page str))
  (Hne : strip (join_empty (map text pages)) <> [])
  (Hret : ending (split_pages count_tokens self fuel pages) = Returned)
  (i : nat) (Hi : (i < length (join_empty (map text pages)))%nat) :
  exists f o,
    In f (yielded (split_pages count_tokens self fuel pages))
    /\ occurs_at (join_empty (map text pages)) o (sp_text f)
    /\ (o <= i < o + length (sp_text f))%nat.
Proof.
  change (covered (join_empty (map text pages))
            (yielded (split_pages count_tokens self fuel pages)) i).
  unfold split_pages in *.
  set (all_text := join_empty (map text pages)) in *.
  destruct (len (strip all_text) =? 0) eqn:Hblank.
  { apply Z.eqb_eq, len_zero_nil in Hblank. contradiction. }
  destruct (len all_text <=? msl) eqn:Hshort.
  - destruct (find_page pages 0) as [pn|x]; [|discriminate].
    exact (split_covers count_tokens self fuel pn all_text Hret i Hi).
  - apply Z.leb_gt in Hshort.
    destruct fuel as [|n]; [discriminate|].
    cbn [sections_loop] in *.
    replace (0 + ov <? len all_text) with true in *
      by (symmetry; apply Z.ltb_lt; lia).
    destruct (window self all_text 0) as [[a e]|x] eqn:Hw; [|discriminate].
    destruct (find_page pages a) as [pn|x] eqn:Hpn; [|discriminate].
    apply gseq_returned_inv in Hret. destruct Hret as [Hr1 [Hr2 Hy]].
    rewrite Hy.
    destruct (next_start self pages (slice all_text (Some a) (Some e)) a e)
      as [start2|x] eqn:Hn; [|discriminate].
    destruct (window_bounds self ltac:(lia) Hov all_text 0 a e
                ltac:(lia) ltac:(lia) Hw) as [Ha [He' _]].
    destruct (next_start_nonneg self Hov pages all_text 0 a e
                start2 ltac:(lia) ltac:(lia) Hw Hn) as [Hs2 _].
    assert (Hs2e : start2 + ov <= e).
    { apply next_start_spec in Hn. destruct Hn as [[_ ->]|[_ ->]]; lia. }
    assert (Ha0 : a = 0).
    { apply window_spec in Hw. destruct Hw as [_ Hws].
      exact (window_start_zero all_text e a Hws). }
    destruct (Z_lt_le_dec (Z.of_nat i) e) as [Hie | Hie].
    + apply covered_app_l.
      apply window_covered; try assumption; lia.
    + apply covered_app_r.
      apply (sections_loop_covers (S n) pages all_text n start2 e);
        try assumption; try lia.
      unfold len. lia.
Qed.

End SectionsCover.

(** The text of two sentences: the run returns, and position 950, which
    both sections hold, lies in a fragment. *)
Lemma split_pages_covers_witness :
  exists f o,
    In f (yielded (SentenceTextSplitter.split_pages
                     Examples.one_token_per_char
                     (SentenceTextSplitter.init 500) 1202
                     MoreExamples.two_sentences_pages))
    /\ occurs_at (join_empty (map text MoreExamples.two_sentences_pages)) o
         (sp_text f)
    /\ (o <= 950 < o + length (sp_text f))%nat.
Proof.
  apply (split_pages_covers Examples.one_token_per_char
           (SentenceTextSplitter.init 500)).
  - vm_compute. discriminate.
  - vm_compute. discriminate.
  - vm_compute. discriminate.
  - vm_compute. reflexivity.
  - vm_compute. lia.
Defined.

(** ** The length-only splitter with a length that is not positive *)

Lemma strip_nonempty (s : str) : strip s <> [] -> 1 <= len s.
Proof.
  intros H. destruct s as [|c s]; [exfalso; apply H; reflexivity|].
  unfold len. simpl length. lia.
Qed.

(** With a [max_object_length] that is not positive and a text that is not
    blank, [SimpleTextSplitter.split_pages] yields nothing: for 0 the
    range raises [ValueError], for a negative length the range is empty
    and the text is dropped without an error. *)
Theorem simple_split_pages_nonpositive (self : SimpleTextSplitter.t)
  (pages : list (Page str))
  (Hle : SimpleTextSplitter.max_object_length self <= 0)
  (Hne : strip (join_empty (map text pages)) <> []) :
  SimpleTextSplitter.split_pages self pages
  = ([], if SimpleTextSplitter.max_object_length self =? 0
         then Raised ValueError else Returned).
Proof.
  pose proof (strip_nonempty _ Hne) as Hlen.
  unfold SimpleTextSplitter.split_pages.
  set (all_text := join_empty (map text pages)) in *.
  destruct (len (strip all_text) =? 0) eqn:Hblank.
  { apply Z.eqb_eq, len_zero_nil in Hblank. contradiction. }
  replace (len all_text <=? SimpleTextSplitter.max_object_length self)
    with false by (symmetry; apply Z.leb_gt; lia).
  destruct (SimpleTextSplitter.max_object_length self =? 0) eqn:Hz;
    [reflexivity|].
  apply Z.eqb_neq in Hz.
  unfold range.
  destruct (Z.to_nat (Z.abs (len all_text - 0))) as [|n]; [reflexivity|].
  cbn [range_loop].
  replace (0 <? SimpleTextSplitter.max_object_length self) with false
    by (symmetry; apply Z.ltb_ge; lia).
  replace (len all_text <? 0) with false
    by (symmetry; apply Z.ltb_ge; lia).
  reflexivity.
Qed.

Lemma simple_split_pages_nonpositive_witness :
  SimpleTextSplitter.split_pages (SimpleTextSplitter.mk (-3))
    Examples.hello_pages
  = ([], Returned).
Proof.
  exact (simple_split_pages_nonpositive (SimpleTextSplitter.mk (-3))
           Examples.hello_pages ltac:(simpl; lia) ltac:(discriminate)).
Defined.

(** ** Lines of a table *)

Lemma split_from_no_sep (sep : char) (s cur : str) :
  Forall (fun c => c <> sep) s ->
  ExcelSplitter.split_from sep s cur = [rev cur ++ s].
Proof.
  revert cur. induction s as [|c s IH]; intros cur H; simpl.
  - rewrite app_nil_r. reflexivity.
  - inversion H as [|c' s' Hc Hs]; subst.
    replace (c =? sep)%N with false by (symmetry; apply N.eqb_neq; exact Hc).
    rewrite IH by exact Hs. simpl. rewrite <- app_assoc. reflexivity.
Qed.

(** A line without a bar that is not made of dashes, bars and spaces only
    loses its content: it becomes the line of an empty cell.  The borders
    of a grid table, made of ["+"] and ["-"], are such lines. *)
Theorem clean_line_without_bars (line : str)
  (Hbars : Forall (fun c => c <> 124%N) line)
  (Himpure : forallb (char_in (lit "-| ")) (strip line) = false) :
  ExcelSplitter.clean_line line = lit "|  |".
Proof.
  unfold ExcelSplitter.clean_line. rewrite Himpure.
  unfold ExcelSplitter.split. rewrite split_from_no_sep by exact Hbars.
  reflexivity.
Qed.

Lemma clean_line_without_bars_witness :
  ExcelSplitter.clean_line (lit "+----+-----+") = lit "|  |".
Proof.
  apply clean_line_without_bars.
  - repeat (apply Forall_cons; [discriminate|]). apply Forall_nil.
  - reflexivity.
Defined.

(** ** Sheets of a workbook *)

Section Workbook.

Variable value : Type.
Variable str_of : value -> str.
Variable tabulate : list (list (ExcelSplitter.tcell value)) -> str.
Variable content_t : Type.
Variable load_workbook :
  content_t -> list (str * ExcelSplitter.Worksheet value).

(** The number of fragments a sheet gives. *)
Lemma split_sheet_page_numbers
  (sheet_page : Page (ExcelSplitter.Worksheet value)) :
  map sp_page_num (ExcelSplitter.split_sheet value str_of tabulate sheet_page)
  = repeat (page_num sheet_page)
      (Z.to_nat
         (ceil_div
            (len (filter (fun row => negb (blank_row str_of row))
                    (ExcelSplitter.iter_rows_2 value (text sheet_page))))
            50)).
Proof.
  unfold ExcelSplitter.split_sheet, ExcelSplitter.get_sheet_data.
  cbv beta iota zeta. rewrite sheet_rows_filter.
  unfold ExcelSplitter.step. rewrite range_up by lia.
  rewrite !map_map. cbn [sp_page_num].
  set (rows := filter _ _).
  replace (len (map (map (ExcelSplitter.cell_text value str_of)) rows))
    with (len rows) by (unfold len; rewrite length_map; reflexivity).
  generalize (Z.to_nat (ceil_div (len rows) 50)). intros n.
  generalize 0%nat.
  induction n as [|n IH]; intros k; [reflexivity|].
  simpl. f_equal. apply IH.
Qed.

(** The pages [ExcelParser.parse] makes of a workbook, through
    [ExcelSplitter.split_pages]: the fragments come sheet after sheet in
    the order of the workbook, [ceil(n / 50)] of them for a sheet with [n]
    rows of data that are not blank, each with the name of its sheet as
    page number. *)
Theorem parse_then_split_page_numbers (content : content_t) :
  map sp_page_num
    (yielded (ExcelSplitter.split_pages value str_of tabulate
                (ExcelParser.parse value content_t load_workbook content)))
  = flat_map
      (fun '(sheet_name, sheet) =>
         repeat (PStr sheet_name)
           (Z.to_nat
              (ceil_div
                 (len (filter (fun row => negb (blank_row str_of row))
                         (ExcelSplitter.iter_rows_2 value sheet)))
                 50)))
      (load_workbook content).
Proof.
  unfold ExcelParser.parse, ExcelSplitter.split_pages, yielded. simpl fst.
  induction (load_workbook content) as [|[sheet_name sheet] rest IH];
    [reflexivity|].
  simpl. rewrite map_app, IH, split_sheet_page_numbers. reflexivity.
Qed.

End Workbook.

(** ** Cleaning a cleaned table *)

(** *** Stripping *)

Lemma lstrip_head_ok (s : str) : head_ok (lstrip s).
Proof.
  induction s as [|c s IH]; simpl; [exact I|].
  destruct (is_space c) eqn:E; [exact IH | exact E].
Qed.

Lemma lstrip_fixed (s : str) : head_ok s -> lstrip s = s.
Proof. destruct s as [|c s]; simpl; [reflexivity | intros ->; reflexivity]. Qed.

Lemma lstrip_suffix (s : str) : exists pre, s = pre ++ lstrip s.
Proof.
  induction s as [|c s [pre IH]]; simpl; [exists []; reflexivity|].
  destruct (is_space c).
  - exists (c :: pre). simpl. f_equal. exact IH.
  - exists []. reflexivity.
Qed.

Lemma head_ok_prefix (a b : str) : head_ok (a ++ b) -> a <> [] -> head_ok a.
Proof. destruct a; simpl; [congruence | auto]. Qed.

(** What [strip] returns starts and ends with a character that is not a
    space. *)
Lemma strip_head_ok (s : str) : head_ok (strip s) /\ head_ok (rev (strip s)).
Proof.
  unfold strip, rstrip. rewrite rev_involutive.
  split; [|apply lstrip_head_ok].
  pose proof (lstrip_head_ok s) as Hy.
  destruct (lstrip_suffix (rev (lstrip s))) as [pre Hpre].
  set (z := lstrip (rev (lstrip s))) in *.
  destruct z as [|c z'] eqn:Ez; [exact I|].
  assert (Hrev : lstrip s = rev (c :: z') ++ rev pre).
  { rewrite <- rev_app_distr, <- Hpre, rev_involutive. reflexivity. }
  rewrite Hrev in Hy. apply (head_ok_prefix _ _ Hy).
  simpl. destruct (rev z'); discriminate.
Qed.

Lemma strip_fixed (s : str) :
  head_ok s -> head_ok (rev s) -> strip s = s.
Proof.
  intros H1 H2. unfold strip, rstrip.
  rewrite (lstrip_fixed s H1), (lstrip_fixed (rev s) H2).
  apply rev_involutive.
Qed.

Lemma lstrip_app_space (s : str) (sp : char) :
  is_space sp = true ->
  lstrip (s ++ [sp]) = match lstrip s with
                       | [] => []
                       | _ :: _ => lstrip s ++ [sp]
                       end.
Proof.
  intros Hsp. induction s as [|c s IH]; simpl.
  - rewrite Hsp. reflexivity.
  - destruct (is_space c); [exact IH | reflexivity].
Qed.

(** A space on each side of a string changes nothing to what [strip]
    returns. *)
Lemma strip_padded (s : str) :
  strip (32%N :: s ++ [32%N]) = strip s.
Proof.
  unfold strip, rstrip. change (lstrip (32%N :: s ++ [32%N]))
    with (lstrip (s ++ [32%N])).
  rewrite lstrip_app_space by reflexivity.
  destruct (lstrip s) as [|c r]; [reflexivity|].
  rewrite rev_app_distr. reflexivity.
Qed.

Lemma lstrip_incl (s : str) (c : char) : In c (lstrip s) -> In c s.
Proof.
  destruct (lstrip_suffix s) as [pre Hpre]. intros H.
  rewrite Hpre. apply in_or_app. now right.
Qed.

Lemma strip_incl (s : str) (c : char) : In c (strip s) -> In c s.
Proof.
  unfold strip, rstrip. intros H.
  apply in_rev in H. apply lstrip_incl in H. apply in_rev in H.
  exact (lstrip_incl s c H).
Qed.

(** *** Splitting at bars *)

Lemma split_from_at_sep (sep : char) (s rest cur : str) :
  Forall (fun c => c <> sep) s ->
  ExcelSplitter.split_from sep (s ++ sep :: rest) cur
  = (rev cur ++ s) :: ExcelSplitter.split_from sep rest [].
Proof.
  revert cur. induction s as [|c s IH]; intros cur H; simpl.
  - rewrite N.eqb_refl, app_nil_r. reflexivity.
  - inversion H as [|c' s' Hc Hs]; subst.
    replace (c =? sep)%N with false by (symmetry; apply N.eqb_neq; exact Hc).
    rewrite IH by exact Hs. simpl. rewrite <- app_assoc. reflexivity.
Qed.

(** The pieces [split] returns hold no separator. *)
Lemma split_from_pieces (sep : char) (s cur : str) :
  Forall (fun c => c <> sep) cur ->
  Forall (Forall (fun c => c <> sep)) (ExcelSplitter.split_from sep s cur).
Proof.
  revert cur. induction s as [|c s IH]; intros cur Hcur; simpl.
  - apply Forall_cons; [|constructor]. apply Forall_rev. exact Hcur.
  - destruct (c =? sep)%N eqn:E.
    + apply Forall_cons; [apply Forall_rev; exact Hcur|].
      apply IH. constructor.
    + apply IH. apply Forall_cons; [apply N.eqb_neq; exact E | exact Hcur].
Qed.

Lemma slice_incl {A : Type} (l : list A) (lo hi : option Z) (x : A) :
  In x (slice l lo hi) -> In x l.
Proof.
  unfold slice. intros H.
  set (n := Z.to_nat (clamp (len l) (len l) hi - clamp (len l) 0 lo)) in *.
  set (k := Z.to_nat (clamp (len l) 0 lo)) in *.
  rewrite <- (firstn_skipn k l). apply in_or_app. right.
  rewrite <- (firstn_skipn n (skipn k l)). apply in_or_app. now left.
Qed.

(** [l[1:-1]] of a list with a first and a last item. *)
Lemma slice_inner {A : Type} (x y : A) (mid : list A) :
  slice (x :: mid ++ [y]) (Some 1) (Some (-1)) = mid.
Proof.
  unfold slice, clamp.
  assert (Hlen : len (x :: mid ++ [y]) = Z.of_nat (length mid) + 2).
  { unfold len. simpl. rewrite length_app. simpl. lia. }
  rewrite Hlen.
  change (1 <? 0) with false. change (-1 <? 0) with true. cbv iota.
  replace (Z.to_nat (Z.max (-1 + (Z.of_nat (length mid) + 2)) 0
                     - Z.min 1 (Z.of_nat (length mid) + 2)))
    with (length mid) by lia.
  replace (Z.to_nat (Z.min 1 (Z.of_nat (length mid) + 2))) with 1%nat by lia.
  simpl. rewrite firstn_app, Nat.sub_diag, firstn_all. simpl.
  apply app_nil_r.
Qed.

Lemma join_bars (c : str) (cells : list str) :
  join (lit " | ") (c :: cells) ++ [32%N; 124%N]
  = c ++ [32%N; 124%N]
    ++ concat (map (fun c => 32%N :: c ++ [32%N; 124%N]) cells).
Proof.
  revert c. induction cells as [|c' cells IH]; intros c.
  - simpl. reflexivity.
  - change (join (lit " | ") (c :: c' :: cells))
      with (c ++ lit " | " ++ join (lit " | ") (c' :: cells)).
    rewrite <- !app_assoc, IH. simpl. rewrite <- !app_assoc. reflexivity.
Qed.

Lemma table_line_bars (c : str) (cells : list str) :
  table_line (c :: cells)
  = 124%N :: concat (map (fun c => 32%N :: c ++ [32%N; 124%N]) (c :: cells)).
Proof.
  unfold table_line. change (lit " |") with [32%N; 124%N].
  rewrite join_bars. simpl. rewrite <- !app_assoc. reflexivity.
Qed.

Lemma split_cells (cells : list str) :
  Forall (Forall (fun c => c <> 124%N)) cells ->
  ExcelSplitter.split_from 124%N
    (concat (map (fun c => 32%N :: c ++ [32%N; 124%N]) cells)) []
  = map (fun c => 32%N :: c ++ [32%N]) cells ++ [[]].
Proof.
  induction cells as [|c cells IH]; intros H; [reflexivity|].
  inversion H as [|c' cells' Hc Hcells]; subst.
  set (rest := concat (map (fun c0 => 32%N :: c0 ++ [32%N; 124%N]) cells))
    in *.
  assert (E : concat (map (fun c0 => 32%N :: c0 ++ [32%N; 124%N])
                        (c :: cells))
              = (32%N :: c ++ [32%N]) ++ 124%N :: rest).
  { simpl. fold rest. f_equal. rewrite <- !app_assoc. reflexivity. }
  rewrite E.
  etransitivity;
    [apply (split_from_at_sep 124%N (32%N :: c ++ [32%N]) rest [])|].
  - apply Forall_cons; [discriminate|].
    apply Forall_app. split; [exact Hc|].
    apply Forall_cons; [discriminate | constructor].
  - rewrite IH by exact Hcells. reflexivity.
Qed.

(** Cleaning the line made of stripped cells without bars gives the same
    line. *)
Lemma clean_table_line (cells : list str) :
  Forall (Forall (fun c => c <> 124%N)) cells ->
  Forall (fun c => strip c = c) cells ->
  ExcelSplitter.clean_line (table_line cells) = table_line cells.
Proof.
  intros Hbars Hstripped. unfold ExcelSplitter.clean_line.
  destruct (forallb (char_in (lit "-| ")) (strip (table_line cells)))
    eqn:Hpure; [reflexivity|].
  fold (table_line
          (map strip (slice (ExcelSplitter.split (table_line cells) 124%N)
                        (Some 1) (Some (-1))))).
  f_equal.
  destruct cells as [|c cells]; [vm_compute in Hpure; discriminate|].
  rewrite table_line_bars. unfold ExcelSplitter.split.
  change (ExcelSplitter.split_from 124%N (124%N :: ?x) [])
    with ([] :: ExcelSplitter.split_from 124%N x []).
  rewrite split_cells by exact Hbars.
  rewrite slice_inner, map_map.
  rewrite <- (map_id (c :: cells)) at 2.
  apply map_ext_in. intros x Hx.
  rewrite strip_padded.
  rewrite Forall_forall in Hstripped. exact (Hstripped x Hx).
Qed.

Lemma strip_idempotent (s : str) : strip (strip s) = strip s.
Proof.
  destruct (strip_head_ok s) as [H1 H2]. exact (strip_fixed _ H1 H2).
Qed.

(** Cleaning a line that was cleaned changes nothing. *)
Lemma clean_line_idempotent (line : str) :
  ExcelSplitter.clean_line (ExcelSplitter.clean_line line)
  = ExcelSplitter.clean_line line.
Proof.
  unfold ExcelSplitter.clean_line at 2 3.
  destruct (forallb (char_in (lit "-| ")) (strip line)) eqn:Hpure.
  - unfold ExcelSplitter.clean_line. rewrite Hpure. reflexivity.
  - apply clean_table_line.
    + apply Forall_forall. intros cell Hcell.
      apply in_map_iff in Hcell. destruct Hcell as [x [<- Hx]].
      apply slice_incl in Hx.
      pose proof (split_from_pieces 124%N line [] ltac:(constructor)) as Hp.
      rewrite Forall_forall in Hp. specialize (Hp x Hx).
      apply Forall_forall. intros ch Hch. apply strip_incl in Hch.
      rewrite Forall_forall in Hp. exact (Hp ch Hch).
    + apply Forall_forall. intros cell Hcell.
      apply in_map_iff in Hcell. destruct Hcell as [x [<- _]].
      apply strip_idempotent.
Qed.

(** *** Lines *)

Lemma splitlines_from_no_break (l cur : str) :
  Forall (fun c => ExcelSplitter.is_linebreak c = false) l ->
  ExcelSplitter.splitlines_from l cur
  = match rev cur ++ l with
    | [] => []
    | _ :: _ => [rev cur ++ l]
    end.
Proof.
  revert cur. induction l as [|c l IH]; intros cur H.
  - simpl. rewrite app_nil_r. destruct cur as [|x cur]; [reflexivity|].
    simpl. destruct (rev cur ++ [x]) eqn:E; [|reflexivity].
    destruct (rev cur); discriminate.
  - inversion H as [|c' l' Hc Hl]; subst.
    cbn [ExcelSplitter.splitlines_from]. rewrite Hc.
    rewrite IH by exact Hl. simpl rev. rewrite <- app_assoc. simpl.
    destruct (rev cur ++ c :: l) eqn:E; [|reflexivity].
    destruct (rev cur); discriminate.
Qed.

Lemma splitlines_from_at_newline (l rest cur : str) :
  Forall (fun c => ExcelSplitter.is_linebreak c = false) l ->
  ExcelSplitter.splitlines_from (l ++ 10%N :: rest) cur
  = (rev cur ++ l) :: ExcelSplitter.splitlines_from rest [].
Proof.
  revert cur. induction l as [|c l IH]; intros cur H.
  - simpl app. cbn [ExcelSplitter.splitlines_from].
    change (ExcelSplitter.is_linebreak 10%N) with true. cbv iota.
    rewrite app_nil_r. destruct rest; reflexivity.
  - inversion H as [|c' l' Hc Hl]; subst.
    simpl app. cbn [ExcelSplitter.splitlines_from]. rewrite Hc.
    rewrite IH by exact Hl. simpl rev. rewrite <- app_assoc. reflexivity.
Qed.

(** Lines without line breaks, the last of which is not empty, joined
    with newlines and split again, are the same lines. *)
Lemma splitlines_join (ls : list str) :
  Forall (Forall (fun c => ExcelSplitter.is_linebreak c = false)) ls ->
  (forall pre, ls <> pre ++ [[]]) ->
  ExcelSplitter.splitlines (join [10%N] ls) = ls.
Proof.
  unfold ExcelSplitter.splitlines.
  induction ls as [|l ls IH]; intros Hnb Hlast; [reflexivity|].
  inversion Hnb as [|l0 ls0 Hl Hls]; subst.
  destruct ls as [|l' ls'].
  - simpl join. rewrite splitlines_from_no_break by exact Hl. simpl.
    destruct l; [exfalso; apply (Hlast []); reflexivity | reflexivity].
  - change (join [10%N] (l :: l' :: ls'))
      with (l ++ 10%N :: join [10%N] (l' :: ls')).
    rewrite splitlines_from_at_newline by exact Hl. simpl. f_equal.
    apply IH; [exact Hls|].
    intros pre E. apply (Hlast (l :: pre)). rewrite E. reflexivity.
Qed.

(** The lines [splitlines] returns hold no line break. *)
Lemma splitlines_from_pieces (n : nat) :
  forall s cur,
    (length s <= n)%nat ->
    Forall (fun c => ExcelSplitter.is_linebreak c = false) cur ->
    Forall (Forall (fun c => ExcelSplitter.is_linebreak c = false))
           (ExcelSplitter.splitlines_from s cur).
Proof.
  induction n as [|n IH]; intros s cur Hn Hcur.
  - destruct s; [|simpl in Hn; lia]. simpl.
    destruct cur; [constructor|].
    apply Forall_cons; [apply Forall_rev; exact Hcur | constructor].
  - destruct s as [|c r].
    + simpl. destruct cur; [constructor|].
      apply Forall_cons; [apply Forall_rev; exact Hcur | constructor].
    + cbn [ExcelSplitter.splitlines_from]. simpl in Hn.
      destruct (ExcelSplitter.is_linebreak c) eqn:Hc.
      * apply Forall_cons; [apply Forall_rev; exact Hcur|].
        destruct r as [|d r'].
        -- apply IH; [simpl; lia | constructor].
        -- destruct ((c =? 13)%N && (d =? 10)%N).
           ++ apply IH; [simpl in Hn; lia | constructor].
           ++ apply IH; [simpl in *; lia | constructor].
      * apply IH; [lia|]. apply Forall_cons; assumption.
Qed.

Section CharInvariant.

Variable P : char -> Prop.

Lemma split_from_Forall (sep : char) (s cur : str) :
  Forall P s -> Forall P cur ->
  Forall (Forall P) (ExcelSplitter.split_from sep s cur).
Proof.
  revert cur. induction s as [|c s IH]; intros cur Hs Hcur; simpl.
  - apply Forall_cons; [apply Forall_rev; exact Hcur | constructor].
  - inversion Hs as [|c' s' Hc Hs']; subst.
    destruct (c =? sep)%N.
    + apply Forall_cons; [apply Forall_rev; exact Hcur|].
      apply IH; [exact Hs' | constructor].
    + apply IH; [exact Hs'|]. apply Forall_cons; assumption.
Qed.

Lemma strip_Forall (s : str) : Forall P s -> Forall P (strip s).
Proof.
  intros H. apply Forall_forall. intros c Hc.
  apply strip_incl in Hc. rewrite Forall_forall in H. exact (H c Hc).
Qed.

Lemma join_Forall (sep : str) (parts : list str) :
  Forall P sep -> Forall (Forall P) parts -> Forall P (join sep parts).
Proof.
  intros Hsep. induction parts as [|p parts IH]; intros H; [constructor|].
  inversion H as [|p' parts' Hp Hparts]; subst.
  destruct parts as [|q parts]; [exact Hp|].
  change (join sep (p :: q :: parts)) with (p ++ sep ++ join sep (q :: parts)).
  apply Forall_app. split; [exact Hp|].
  apply Forall_app. split; [exact Hsep | exact (IH Hparts)].
Qed.

(** Cleaning a line brings in bars and spaces only. *)
Lemma clean_line_Forall (line : str) :
  P 124%N -> P 32%N -> Forall P line ->
  Forall P (ExcelSplitter.clean_line line).
Proof.
  intros Hbar Hsp Hline. unfold ExcelSplitter.clean_line.
  destruct (forallb _ _); [exact Hline|].
  apply Forall_app. split; [repeat constructor; assumption|].
  apply Forall_app. split; [|repeat constructor; assumption].
  apply join_Forall; [repeat constructor; assumption|].
  apply Forall_forall. intros cell Hcell.
  apply in_map_iff in Hcell. destruct Hcell as [x [<- Hx]].
  apply strip_Forall. apply slice_incl in Hx.
  pose proof (split_from_Forall 124%N line [] Hline ltac:(constructor)) as Hp.
  rewrite Forall_forall in Hp. exact (Hp x Hx).
Qed.

End CharInvariant.

Lemma clean_line_nonempty (line : str) :
  line <> [] -> ExcelSplitter.clean_line line <> [].
Proof.
  intros H. unfold ExcelSplitter.clean_line.
  destruct (forallb _ _); [exact H | discriminate].
Qed.

(** Cleaning a cleaned table changes nothing, for a table whose last line
    is not empty. *)
Theorem clean_markdown_table_idempotent (table_str : str)
  (Hlast : forall pre, ExcelSplitter.splitlines table_str <> pre ++ [[]]) :
  ExcelSplitter.clean_markdown_table
    (ExcelSplitter.clean_markdown_table table_str)
  = ExcelSplitter.clean_markdown_table table_str.
Proof.
  unfold ExcelSplitter.clean_markdown_table.
  set (lines := ExcelSplitter.splitlines table_str) in *.
  assert (Hnb : Forall (Forall (fun c => ExcelSplitter.is_linebreak c = false))
                  lines).
  { apply (splitlines_from_pieces (length table_str)); [lia | constructor]. }
  rewrite splitlines_join.
  - rewrite map_map. f_equal. apply map_ext. apply clean_line_idempotent.
  - apply Forall_forall. intros l Hl.
    apply in_map_iff in Hl. destruct Hl as [x [<- Hx]].
    apply clean_line_Forall; [reflexivity | reflexivity|].
    rewrite Forall_forall in Hnb. exact (Hnb x Hx).
  - intros pre E.
    apply map_eq_app in E. destruct E as [l1 [l2 [El [_ E2]]]].
    destruct l2 as [|x [|y l2]]; try discriminate.
    simpl in E2. injection E2 as E2.
    destruct x as [|c x];
      [|exact (clean_line_nonempty (c :: x) ltac:(discriminate) E2)].
    exact (Hlast l1 El).
Qed.

(** A table of two lines: cleaning it twice is cleaning it once. *)
Lemma clean_markdown_table_idempotent_witness :
  ExcelSplitter.clean_markdown_table
    (ExcelSplitter.clean_markdown_table (lit "+----+----+
|  A  |  B |"))
  = ExcelSplitter.clean_markdown_table (lit "+----+----+
|  A  |  B |").
Proof.
  apply clean_markdown_table_idempotent.
  intros pre E. vm_compute in E.
  destruct pre as [|x [|y [|z pre]]]; discriminate.
Defined.

(** ** Two characters *)

(** A text of two characters that ends with a sentence ending and is over
    the budget: the search stops on the last character, the first half is
    the whole text, and [split_page_by_max_tokens] recurses on it for
    ever without yielding anything. *)
Theorem split_page_by_max_tokens_two_chars_never_returns
  (count_tokens : str -> nat) (self : SentenceTextSplitter.t)
  (page_num : PageNum) (c d : char) (fuel : nat)
  (Hd : char_in (SentenceTextSplitter.sentence_endings self) d = true)
  (Hover : SentenceTextSplitter.max_tokens_per_section self
           < Z.of_nat (count_tokens [c; d])) :
  SentenceTextSplitter.split_page_by_max_tokens count_tokens self fuel
    page_num [c; d]
  = ([], Timeout).
Proof.
  induction fuel as [|fuel IH]; [reflexivity|].
  rewrite split_page_by_max_tokens_eq.
  destruct (Z.of_nat (count_tokens [c; d])
            <=? SentenceTextSplitter.max_tokens_per_section self) eqn:Hfit;
    [apply Z.leb_le in Hfit; lia|].
  assert (Hs : snd (SentenceTextSplitter.spiral_search self [c; d]) = Ok 1).
  { unfold SentenceTextSplitter.spiral_search. simpl. rewrite Hd.
    reflexivity. }
  rewrite Hs.
  change (SentenceTextSplitter.halves [c; d] 1) with ([c; d], @nil char).
  simpl fst; simpl snd. rewrite IH. reflexivity.
Qed.

(** The text "a." with a budget of one token and one token per
    character. *)
Lemma split_page_by_max_tokens_two_chars_never_returns_witness :
  SentenceTextSplitter.split_page_by_max_tokens
    Examples.one_token_per_char (SentenceTextSplitter.init 1) 1000
    (PInt 0) (lit "a.")
  = ([], Timeout).
Proof.
  apply (split_page_by_max_tokens_two_chars_never_returns
           Examples.one_token_per_char (SentenceTextSplitter.init 1)
           (PInt 0) 97%N 46%N 1000).
  - reflexivity.
  - simpl. lia.
Defined.

(** The text of a figure: the window [[0, 1101)] holds the tag that opens
    at 600, and the next window, [[418, 1617)], starts before the tag and
    ends after it. *)
Lemma unclosed_figure_next_window_witness :
  let self := SentenceTextSplitter.init 500 in
  let all_text := Examples.long_figure in
  SentenceTextSplitter.window self all_text 600 = Ok (418, 1617)
  /\ 418 <= 0 + rfind (slice all_text (Some 0) (Some 1101)) (lit "<figure")
  /\ 0 + rfind (slice all_text (Some 0) (Some 1101)) (lit "<figure") + 7
     <= 1617.
Proof.
  cbv zeta.
  assert (Hw : SentenceTextSplitter.window (SentenceTextSplitter.init 500)
                 Examples.long_figure 600 = Ok (418, 1617))
    by (vm_compute; reflexivity).
  split; [exact Hw|].
  refine (proj2 (unclosed_figure_next_window (SentenceTextSplitter.init 500)
                   [mkPage (PInt 0) (Some 0) Examples.long_figure]
                   Examples.long_figure 0 0 1101 600
                   _ _ _ _ _ _ _ _ _ _ _) 418 1617 _ Hw).
  - vm_compute. discriminate.
  - vm_compute. discriminate.
  - vm_compute. discriminate.
  - reflexivity.
  - reflexivity.
  - vm_compute. discriminate.
  - vm_compute. reflexivity.
  - vm_compute. reflexivity.
  - vm_compute. reflexivity.
  - vm_compute. reflexivity.
  - vm_compute. reflexivity.
  - vm_compute. reflexivity.
Defined.
